(** * PayRue staking tools: retrying RPC calls, batched log fetching,
      closest-block bisection, and the Uint256 column type

    Shallow embedding of [tools/utils.py] and
    [python/staking_rewarder/models/types.py].

    Python integers are unbounded, so they are [Z].  Every remote call
    (a web3 provider, a contract event object) is a state transformer on
    an abstract node state; what the program does to the outside world
    (RPC calls, sleeps, log lines) is recorded, in order, in a trace.
    A [while] loop with no static bound takes a fuel argument: running
    out of fuel is [None], everything else is [Some]. *)

From Stdlib Require Import ZArith List String Bool Lia.
From Stdlib Require Import DecimalString.
From Stdlib.Strings Require Import Byte.
Import ListNotations.
Open Scope string_scope.
Open Scope list_scope.
Open Scope Z_scope.

(** ** Exceptions and outcomes *)

(** The exception classes that occur in the two source files, together
    with what the node side can raise.  [RetriesExhaustedError] is the
    name section 7 of the specification uses; it is declared so that the
    specification's sentence can be written down, and no definition
    below ever builds it. *)
Inductive PyExc : Type :=
| ValueError (msg : string)
| LookupError (msg : string)
| TypeError (msg : string)
| OverflowError (msg : string)
| BlockNotFound (block_identifier : Z)
| RpcError (code : Z)
| RetriesExhaustedError (cause : PyExc) (attempts : Z).

Inductive Outcome (A : Type) : Type :=
| Return (a : A)
| Raise (e : PyExc).
Arguments Return {A} a.
Arguments Raise {A} e.

(** ** The observable trace *)

Inductive LogLevel : Type := DEBUG | INFO | WARNING.

Inductive Event : Type :=
| Ev_call                                  (* one call of the decorated func *)
| Ev_getLogs (fromBlock toBlock : Z)       (* event.getLogs(...) *)
| Ev_block_number                          (* web3.eth.block_number *)
| Ev_get_block (block_identifier : Z)      (* web3.eth.get_block(n) *)
| Ev_sleep (seconds : Z)                   (* time.sleep(seconds) *)
| Ev_log (level : LogLevel) (fmt : string) (* logger.<level>(fmt, ...) *).

Record World (S : Type) : Type := mkWorld { node : S; trace : list Event }.
Arguments mkWorld {S} node trace.
Arguments node {S} w.
Arguments trace {S} w.

(** ** A state-and-exception monad with divergence *)

Definition M (S A : Type) : Type := World S -> option (Outcome A * World S).

Definition ret {S A} (a : A) : M S A := fun w => Some (Return a, w).
Definition raise {S A} (e : PyExc) : M S A := fun w => Some (Raise e, w).
Definition out_of_fuel {S A} : M S A := fun _ => None.

Definition bind {S A B} (m : M S A) (k : A -> M S B) : M S B :=
  fun w =>
    match m w with
    | None => None
    | Some (Return a, w') => k a w'
    | Some (Raise e, w') => Some (Raise e, w')
    end.

(** [try: m  except Exception as e: handler e] *)
Definition try_except {S A} (m : M S A) (handler : PyExc -> M S A) : M S A :=
  fun w =>
    match m w with
    | None => None
    | Some (Return a, w') => Some (Return a, w')
    | Some (Raise e, w') => handler e w'
    end.

Declare Scope py_scope.
Delimit Scope py_scope with py.
Notation "x <- m ;; k" := (bind m (fun x => k))
  (at level 61, m at next level, right associativity) : py_scope.
Notation "m ;; k" := (bind m (fun _ => k))
  (at level 61, right associativity) : py_scope.
Open Scope py_scope.

Definition emit {S} (e : Event) : M S unit :=
  fun w => Some (Return tt, mkWorld (node w) (trace w ++ [e])).

(** A remote call: the node answers and moves to its next state; the
    call is recorded. *)
Definition remote {S A} (e : Event) (f : S -> Outcome A * S) : M S A :=
  fun w =>
    let (r, s') := f (node w) in
    Some (r, mkWorld s' (trace w ++ [e])).

Definition sleep {S} (seconds : Z) : M S unit := emit (Ev_sleep seconds).
Definition logger {S} (level : LogLevel) (fmt : string) : M S unit :=
  emit (Ev_log level fmt).

(** Projections of a trace. *)
Definition is_log (e : Event) : bool :=
  match e with Ev_log _ _ => true | _ => false end.

(** Everything but the log lines. *)
Definition effects (tr : list Event) : list Event :=
  filter (fun e => negb (is_log e)) tr.

Definition sleeps (tr : list Event) : list Z :=
  flat_map (fun e => match e with Ev_sleep s => [s] | _ => [] end) tr.

(** The invocations of a retried operation. *)
Definition is_call (e : Event) : bool :=
  match e with Ev_call | Ev_getLogs _ _ => true | _ => false end.

Definition calls (tr : list Event) : list Event := filter is_call tr.

Definition getLogs_ranges (tr : list Event) : list (Z * Z) :=
  flat_map (fun e => match e with Ev_getLogs a b => [(a, b)] | _ => [] end) tr.

Definition probes (tr : list Event) : list Z :=
  flat_map (fun e => match e with Ev_get_block n => [n] | _ => [] end) tr.

(** str(n) for a Python int. *)
Definition str (n : Z) : string := NilZero.string_of_int (Z.to_int n).

(** ** Retrying ([tools/utils.py], lines 88-131) *)

(** [exponential_sleep(attempt, max_sleep_time=256.0)].  Both callers
    pass a non-negative integer attempt, where [2 ** attempt] is an
    integer; the sleep time is kept as that integer number of seconds
    (256.0 and 256 are the same number of seconds). *)
Definition exponential_sleep {S} (attempt : Z) (max_sleep_time : Z) : M S unit :=
  let sleep_time := Z.min (2 ^ attempt) max_sleep_time in
  sleep sleep_time.

Definition default_max_sleep_time : Z := 256.

Section Decorator.
Context {S T : Type}.
(** The decorated function, applied to its arguments: a computation on
    the node state that returns or raises. *)
Variable func : S -> Outcome T * S.

(** The [while True] loop of [wrapped], entered with the current value
    of [attempt]. *)
Fixpoint wrapped_loop (fuel : nat) (max_attempts attempt : Z) : M S T :=
  match fuel with
  | O => out_of_fuel
  | Datatypes.S fuel' =>
      try_except
        (remote Ev_call func)
        (fun e =>
           if attempt >=? max_attempts then
             logger WARNING "max attempts (%s) exchusted for error: %s" ;;
             raise e
           else
             logger WARNING "Retryable error (attempt: %s/%s): %s" ;;
             exponential_sleep attempt default_max_sleep_time ;;
             wrapped_loop fuel' max_attempts (attempt + 1))
  end.

(** One call of [func] decorated with [retryable(max_attempts=...)]. *)
Definition retryable (fuel : nat) (max_attempts : Z) : M S T :=
  wrapped_loop fuel max_attempts 0.
End Decorator.

Section Batch.
Context {S Rec Filter : Type}.
(** [event.getLogs(fromBlock=, toBlock=, argument_filters=)] *)
Variable getLogs : Z -> Z -> Filter -> S -> Outcome (list Rec) * S.

Fixpoint batch_loop (fuel : nat) (from_block to_block : Z)
    (argument_filters : Filter) (initial_retries retries : Z)
    : M S (list Rec) :=
  match fuel with
  | O => out_of_fuel
  | Datatypes.S fuel' =>
      try_except
        (remote (Ev_getLogs from_block to_block)
                (getLogs from_block to_block argument_filters))
        (fun e =>
           if retries <=? 0 then raise e
           else
             logger WARNING "error in get_all_entries: %s, retrying (%s)" ;;
             let retries := retries - 1 in
             exponential_sleep (initial_retries - retries) default_max_sleep_time ;;
             batch_loop fuel' from_block to_block argument_filters
                        initial_retries retries)
  end.

Definition get_event_batch_with_retries (fuel : nat) (from_block to_block : Z)
    (argument_filters : Filter) (retries : Z) : M S (list Rec) :=
  let initial_retries := retries in
  batch_loop fuel from_block to_block argument_filters initial_retries retries.

Definition default_retries : Z := 10.

(** ** Batched log fetching ([tools/utils.py], lines 55-85) *)

(** The [while batch_from_block <= to_block] loop; [ret_] is the list
    [ret] being extended.  One unit of fuel is one iteration. *)
Fixpoint get_events_loop (fuel : nat) (to_block batch_size : Z)
    (argument_filters : Filter) (ret_ : list Rec) (batch_from_block : Z)
    : M S (list Rec) :=
  if batch_from_block <=? to_block then
    match fuel with
    | O => out_of_fuel
    | Datatypes.S fuel' =>
        let batch_to_block := Z.min (batch_from_block + batch_size) to_block in
        logger INFO "fetching batch from %s to %s (up to %s)" ;;
        events <- get_event_batch_with_retries fuel batch_from_block
                    batch_to_block argument_filters default_retries ;;
        (if 0 <? Z.of_nat (List.length events)
         then logger INFO "found %s events in batch" else ret tt) ;;
        let ret_ := ret_ ++ events in
        get_events_loop fuel' to_block batch_size argument_filters ret_
                        (batch_to_block + 1)
    end
  else
    logger INFO "found %s events in total" ;;
    ret ret_.

Definition get_events (fuel : nat) (from_block to_block batch_size : Z)
    (argument_filters : Filter) : M S (list Rec) :=
  if to_block <? from_block then
    raise (ValueError ("to_block " ++ str to_block
                       ++ " is smaller than from_block " ++ str from_block)%string)
  else
    logger INFO "fetching events from %s to %s with batch size %s" ;;
    get_events_loop fuel to_block batch_size argument_filters [] from_block.

Definition default_batch_size : Z := 1000.
End Batch.

(** ** Closest-block bisection ([tools/utils.py], lines 148-197) *)

(** The two keys of [BlockData] the function reads. *)
Record BlockData : Type := mkBlock { number : Z; timestamp : Z }.

(** What the function reads of [wanted_datetime]. *)
Record datetime : Type := mkDatetime {
  int_timestamp : Z;          (* int(wanted_datetime.timestamp()) *)
  isoformat : string          (* wanted_datetime.isoformat() *)
}.

(** The two members of [web3.eth] the function uses. *)
Record Web3 (S : Type) : Type := mkWeb3 {
  eth_block_number : S -> Outcome Z * S;
  eth_get_block : Z -> S -> Outcome BlockData * S
}.
Arguments eth_block_number {S} _ _.
Arguments eth_get_block {S} _ _ _.

(** How the [while] loop is left: by [return block] or by its condition
    turning false, with [closest_block] as it then stands. *)
Inductive LoopExit : Type :=
| Returned (block : BlockData)
| Fallthrough (closest_block : option BlockData).

Definition initial_closest_diff : Z := 2 ^ 256 - 1.

Section Locator.
Context {S : Type}.
Variable web3 : Web3 S.

Fixpoint bisect_loop (fuel : nat) (wanted_timestamp : Z)
    (start_block_number end_block_number : Z)
    (closest_block : option BlockData) (closest_diff : Z) : M S LoopExit :=
  if start_block_number <=? end_block_number then
    match fuel with
    | O => out_of_fuel
    | Datatypes.S fuel' =>
        let target_block_number := (start_block_number + end_block_number) / 2 in
        block <- remote (Ev_get_block target_block_number)
                        (eth_get_block web3 target_block_number) ;;
        let block_timestamp := timestamp block in
        let diff := block_timestamp - wanted_timestamp in
        logger DEBUG "target: %s, timestamp: %s, diff %s" ;;
        let '(closest_diff, closest_block) :=
          if Z.abs diff <? closest_diff
          then (Z.abs diff, Some block)
          else (closest_diff, closest_block) in
        if block_timestamp >? wanted_timestamp then
          bisect_loop fuel' wanted_timestamp start_block_number
                      (number block - 1) closest_block closest_diff
        else if block_timestamp <? wanted_timestamp then
          bisect_loop fuel' wanted_timestamp (number block + 1)
                      end_block_number closest_block closest_diff
        else
          ret (Returned block)
    end
  else
    ret (Fallthrough closest_block).

(** The statements after the loop. *)
Definition after_loop (wanted_datetime : datetime) (not_before : bool)
    (closest_block : option BlockData) : M S BlockData :=
  let wanted_timestamp := int_timestamp wanted_datetime in
  match closest_block with
  | None =>
      raise (LookupError ("Unable to determine block closest to "
                          ++ isoformat wanted_datetime)%string)
  | Some closest_block =>
      if not_before && (timestamp closest_block <? wanted_timestamp) then
        logger DEBUG "Block is before wanted timestamp and not_before=True, returning next block" ;;
        remote (Ev_get_block (number closest_block + 1))
               (eth_get_block web3 (number closest_block + 1))
      else
        ret closest_block
  end.

Definition get_closest_block (fuel : nat) (wanted_datetime : datetime)
    (not_before : bool) : M S BlockData :=
  let wanted_timestamp := int_timestamp wanted_datetime in
  logger DEBUG "Wanted timestamp: %s" ;;
  let start_block_number := 1 in
  end_block_number <- remote Ev_block_number (eth_block_number web3) ;;
  logger DEBUG "Bisecting between %s and %s" ;;
  exit <- bisect_loop fuel wanted_timestamp start_block_number
            end_block_number None initial_closest_diff ;;
  match exit with
  | Returned block => ret block
  | Fallthrough closest_block => after_loop wanted_datetime not_before closest_block
  end.
End Locator.

(** A chain that does not change while it is searched: blocks
    [0 .. latest], block [n] stamped [stamp n]; asking for any other
    number raises [BlockNotFound], as web3 does. *)
Record Chain : Type := mkChain { latest : Z; stamp : Z -> Z }.

Definition block_of (c : Chain) (n : Z) : BlockData := mkBlock n (stamp c n).

Definition chain_web3 : Web3 Chain :=
  mkWeb3 Chain
    (fun c => (Return (latest c), c))
    (fun n c =>
       if (0 <=? n) && (n <=? latest c)
       then (Return (block_of c n), c)
       else (Raise (BlockNotFound n), c)).

(** ** The Uint256 column type ([models/types.py]) *)

(** [decimal.Decimal]: sign, coefficient and exponent, or a special value. *)
Inductive Decimal : Type :=
| DecFinite (negative : bool) (coefficient : N) (exponent : Z)
| DecInfinity (negative : bool)
| DecNaN.

(** The values a column of this type is handed. *)
Inductive PyValue : Type :=
| PyNone
| PyInt (z : Z)
| PyDecimal (d : Decimal).

Definition MAX_UINT256 : Z := 2 ^ 256 - 1.

(** [int(value)]: a Decimal is truncated towards zero. *)
Definition int (value : PyValue) : Outcome Z :=
  match value with
  | PyInt z => Return z
  | PyDecimal (DecFinite negative coefficient exponent) =>
      let magnitude :=
        if 0 <=? exponent
        then Z.of_N coefficient * 10 ^ exponent
        else Z.of_N coefficient / 10 ^ (- exponent) in
      Return (if negative then - magnitude else magnitude)
  | PyDecimal (DecInfinity _) =>
      Raise (OverflowError "cannot convert Infinity to integer")
  | PyDecimal DecNaN =>
      Raise (ValueError "cannot convert NaN to integer")
  | PyNone =>
      Raise (TypeError "int() argument must be a string, a bytes-like object or a real number, not 'NoneType'")
  end.

(** The source's [raise f"..."] raises a [str]; Python answers that with
    [TypeError: exceptions must derive from BaseException]. *)
Definition _coerce_and_validate_uint256 (value : PyValue) : Outcome PyValue :=
  match int value with
  | Raise e => Raise e
  | Return value =>
      if (value <? 0) || (value >? MAX_UINT256)
      then Raise (TypeError "exceptions must derive from BaseException")
      else Return (PyInt value)
  end.

Definition process_result_value (value : PyValue) : Outcome PyValue :=
  match value with
  | PyNone => Return PyNone
  | _ => _coerce_and_validate_uint256 value
  end.

Definition process_bind_param (value : PyValue) : Outcome PyValue :=
  match value with
  | PyDecimal _ => _coerce_and_validate_uint256 value
  | _ => Return value
  end.

(** ** Vocabulary of the properties *)

(** [func] fails exactly [k] times from state [s] and then returns [v]. *)
Fixpoint fails_then_succeeds {S T} (func : S -> Outcome T * S)
    (k : nat) (v : T) (s : S) : Prop :=
  match k with
  | O => exists s', func s = (Return v, s')
  | Datatypes.S k' =>
      exists e s', func s = (Raise e, s') /\ fails_then_succeeds func k' v s'
  end.

(** [func] fails whenever it is called. *)
Definition always_fails {S T} (func : S -> Outcome T * S) : Prop :=
  forall s, exists e, fst (func s) = Raise e.

(** The node state after [n] calls of [func]. *)
Fixpoint state_after {S T} (func : S -> Outcome T * S) (n : nat) (s : S) : S :=
  match n with
  | O => s
  | Datatypes.S n' => state_after func n' (snd (func s))
  end.

(** What the world sees of [k] failed calls followed by a successful
    one when the sleep after the first failure is for attempt number
    [attempt]: call, sleep, call, sleep, ..., call. *)
Fixpoint backoff_trace (call : Event) (k : nat) (attempt : Z) : list Event :=
  match k with
  | O => [call]
  | Datatypes.S k' =>
      call :: Ev_sleep (Z.min (2 ^ attempt) 256)
           :: backoff_trace call k' (attempt + 1)
  end.

(** The sleeps the specification asks for: 1, 2, 4, ..., 2^(k-1), each
    capped at 256. *)
Definition spec_sleeps (k : nat) : list Z :=
  map (fun i => Z.min (2 ^ Z.of_nat i) 256) (seq 0 k).

(** [rs] is a sequence of inclusive ranges that partitions [[a, b]]:
    the first starts at [a], each next one starts right after the
    previous one ends, the last ends at [b], none is empty. *)
Inductive partitions : Z -> Z -> list (Z * Z) -> Prop :=
| partitions_one a b : a <= b -> partitions a b [(a, b)]
| partitions_cons a m b rs :
    a <= m -> m < b -> partitions (m + 1) b rs ->
    partitions a b ((a, m) :: rs).

Definition covers (n : Z) (r : Z * Z) : bool := (fst r <=? n) && (n <=? snd r).

Definition range_width (r : Z * Z) : Z := snd r - fst r + 1.

(** The call that fetches the range [r]. *)
Definition getLogs_event (r : Z * Z) : Event := Ev_getLogs (fst r) (snd r).

(** A node whose [getLogs] always answers, with [logs a b flt], and
    does not change. *)
Definition reliable {S Rec Filter}
    (getLogs : Z -> Z -> Filter -> S -> Outcome (list Rec) * S)
    (logs : Z -> Z -> Filter -> list Rec) : Prop :=
  forall a b flt s, getLogs a b flt s = (Return (logs a b flt), s).

(** A node whose [getLogs] may fail, and may change state, but whose
    every answer is [logs a b flt]. *)
Definition answers_with {S Rec Filter}
    (getLogs : Z -> Z -> Filter -> S -> Outcome (list Rec) * S)
    (logs : Z -> Z -> Filter -> list Rec) : Prop :=
  forall a b flt s v s', getLogs a b flt s = (Return v, s') -> v = logs a b flt.

(** Fetching two adjacent ranges gives what fetching their union gives. *)
Definition concatenative {Rec Filter} (logs : Z -> Z -> Filter -> list Rec) : Prop :=
  forall a b c flt, a <= b -> b < c ->
    logs a c flt = logs a b flt ++ logs (b + 1) c flt.

(** Timestamps do not decrease with the block number on [1 .. latest]. *)
Definition monotone (c : Chain) : Prop :=
  forall i j, 1 <= i -> i <= j -> j <= latest c -> stamp c i <= stamp c j.

(** The ranges of the data: a block timestamp is a uint64, and
    [int(datetime.timestamp())] of a Python datetime (years 1 to 9999)
    fits 64 signed bits with room to spare. *)
Definition uint64_stamps (c : Chain) : Prop :=
  forall n, 1 <= n <= latest c -> 0 <= stamp c n < 2 ^ 64.

Definition datetime_in_range (d : datetime) : Prop :=
  - 2 ^ 63 <= int_timestamp d < 2 ^ 63.

(** How far block [n] is from the wanted timestamp [t]. *)
Definition dist (c : Chain) (t n : Z) : Z := Z.abs (stamp c n - t).

(** Every block of the searched range is nearer than the initial
    [closest_diff]. *)
Definition within_sentinel (c : Chain) (t : Z) : Prop :=
  forall n, 1 <= n <= latest c -> dist c t n < initial_closest_diff.

(** Among the blocks probed, in the order [ps] in which they were
    probed, [n] is the first one at the least distance. *)
Definition first_closest (c : Chain) (t : Z) (ps : list Z) (n : Z) : Prop :=
  exists pre post,
    ps = pre ++ n :: post
    /\ (forall q, In q pre -> dist c t n < dist c t q)
    /\ (forall q, In q post -> dist c t n <= dist c t q).

(** The loop variables [closest_block] and [closest_diff] after the
    probes [ps]. *)
Definition tracks_best (c : Chain) (t : Z) (ps : list Z)
    (closest_block : option BlockData) (closest_diff : Z) : Prop :=
  match closest_block with
  | None => ps = [] /\ closest_diff = initial_closest_diff
  | Some b =>
      b = block_of c (number b)
      /\ closest_diff = dist c t (number b)
      /\ first_closest c t ps (number b)
  end.

(** The bisection invariant: every block below [lo] is earlier than
    [t], every block above [hi] is later, and the blocks next to the
    interval, when there are any, have been probed. *)
Definition bracketed (c : Chain) (t lo hi : Z) (ps : list Z) : Prop :=
  (forall j, 1 <= j < lo -> stamp c j < t)
  /\ (forall j, hi < j <= latest c -> t < stamp c j)
  /\ (1 < lo -> In (lo - 1) ps)
  /\ (hi < latest c -> In (hi + 1) ps).

(** What [get_closest_block] does before the loop: a log line, the
    request for the latest block number, another log line. *)
Definition search_prelude : list Event :=
  [Ev_log DEBUG "Wanted timestamp: %s"; Ev_block_number;
   Ev_log DEBUG "Bisecting between %s and %s"].

(** The log line of the [not_before] branch. *)
Definition next_block_log : Event :=
  Ev_log DEBUG "Block is before wanted timestamp and not_before=True, returning next block".

(** The log line written after each probe. *)
Definition probe_log : Event :=
  Ev_log DEBUG "target: %s, timestamp: %s, diff %s".

(** What the loop, entered on the interval [[lo, hi]] after the probes
    [ps] with best candidate [cb] at distance [cd], has done when it is
    left by [exit] after the events [tr']. *)
Definition loop_post (c : Chain) (t lo hi : Z) (ps : list Z)
    (cb : option BlockData) (cd : Z)
    (tr' : list Event) (exit : LoopExit) : Prop :=
  match exit with
  | Returned b =>
      exists pre,
        probes tr' = pre ++ [number b]
        /\ b = block_of c (number b)
        /\ stamp c (number b) = t
        /\ (forall q, In q pre -> stamp c q <> t)
  | Fallthrough cb' =>
      (forall q, In q (probes tr') -> stamp c q <> t)
      /\ (cb <> None -> cb' <> None)
      /\ (within_sentinel c t -> tracks_best c t ps cb cd ->
          exists cd', tracks_best c t (ps ++ probes tr') cb' cd')
      /\ (monotone c -> bracketed c t lo hi ps ->
          exists k, lo - 1 <= k <= hi
                    /\ bracketed c t (k + 1) k (ps ++ probes tr'))
  end.

(** ** Fixtures *)

(** A function that raises on its first [k] calls and returns [v]
    afterwards; the state counts the calls. *)
Definition flaky {T} (k : nat) (v : T) (n : nat) : Outcome T * nat :=
  if (n <? k)%nat then (Raise (RpcError (Z.of_nat n)), Datatypes.S n)
  else (Return v, Datatypes.S n).

(** A function that raises on every call, each time with another code. *)
Definition broken (n : nat) : Outcome Z * nat :=
  (Raise (RpcError (Z.of_nat n)), Datatypes.S n).

(** [getLogs] of a flaky node: the first [k] requests fail. *)
Definition flaky_getLogs (k : nat) (a b : Z) (flt : unit) (n : nat)
    : Outcome (list Z) * nat :=
  flaky k [a; b] n.

Definition broken_getLogs (a b : Z) (flt : unit) (n : nat)
    : Outcome (list Z) * nat :=
  (Raise (RpcError (Z.of_nat n)), Datatypes.S n).

(** The block numbers [a, a+1, ..., b]. *)
Definition Zrange (a b : Z) : list Z :=
  map (fun i => a + Z.of_nat i) (seq 0 (Z.to_nat (b - a + 1))).

(** A ledger with one log record per block, the block number, and a
    filter that is a predicate on records. *)
Definition ledger_logs (a b : Z) (flt : Z -> bool) : list Z :=
  filter flt (Zrange a b).

Definition ledger_getLogs (a b : Z) (flt : Z -> bool) (s : unit)
    : Outcome (list Z) * unit :=
  (Return (ledger_logs a b flt), s).

(** Chains given by a list of timestamps for blocks 1, 2, ... (block 0
    and blocks past the end are stamped 0, and only 0 .. length exist). *)
Definition chain_of_list (l : list Z) : Chain :=
  mkChain (Z.of_nat (List.length l))
          (fun n => if n <=? 0 then 0 else nth (Z.to_nat (n - 1)) l 0).

(** The chain of the end-to-end scenario: 100 blocks, block [n]
    stamped [1000 * n]. *)
Definition linear_chain : Chain := mkChain 100 (fun n => 1000 * n).

Definition at_time (t : Z) : datetime := mkDatetime t "1970-01-01T00:00:00".


Definition fresh {S} (s : S) : World S := mkWorld s [].

(** ** Further vocabulary *)

(** The sum of a list of integers: the seconds slept in total. *)
Definition Zsum (l : list Z) : Z := fold_right Z.add 0 l.

(** The sleeps of the fetcher's own retry loop after [k] failures:
    attempts 1, 2, ..., [k]. *)
Definition fetcher_sleeps (k : nat) : list Z :=
  map (fun i => Z.min (2 ^ (Z.of_nat i + 1)) 256) (seq 0 k).

(** The sub-ranges [get_events] asks for, in closed form: the [i]-th
    starts [i * (batch_size + 1)] blocks after [from_block] and ends
    [batch_size] blocks later, or at [to_block] if that comes first. *)
Definition batch_ranges (from_block to_block batch_size : Z) : list (Z * Z) :=
  map (fun i =>
         let a := from_block + Z.of_nat i * (batch_size + 1) in
         (a, Z.min (a + batch_size) to_block))
      (seq 0 (Z.to_nat ((to_block - from_block) / (batch_size + 1) + 1))).

(** A node whose failures are transient: whatever its state, a request
    fails at most [budget] times in a row and is then answered with
    [logs a b flt]. *)
Definition transient {S Rec Filter}
    (getLogs : Z -> Z -> Filter -> S -> Outcome (list Rec) * S)
    (logs : Z -> Z -> Filter -> list Rec) (budget : nat) : Prop :=
  forall a b flt s,
    exists k, (k <= budget)%nat
              /\ fails_then_succeeds (getLogs a b flt) k (logs a b flt) s.

(** A ledger node that answers only every third request. *)
Definition moody_getLogs (a b : Z) (flt : Z -> bool) (n : nat)
    : Outcome (list Z) * nat :=
  if (n mod 3 =? 2)%nat
  then (Return (ledger_logs a b flt), Datatypes.S n)
  else (Raise (RpcError (Z.of_nat n)), Datatypes.S n).

(** Timestamps increase strictly with the block number on [1 .. latest]. *)
Definition strictly_increasing (c : Chain) : Prop :=
  forall i j, 1 <= i -> i < j -> j <= latest c -> stamp c i < stamp c j.

(** ** The cached contract test ([tools/utils.py], lines 134-145) *)

(** [functools.lru_cache(maxsize)] around a function of one hashable
    key: the cache is the list of (key, result) pairs, most recently
    used first.  A hit returns the stored result and moves its entry to
    the front; a miss calls the function and, if it returns, stores the
    result at the front, dropping the least recently used entry when
    the cache is full; a raised exception is not stored. *)
Section LruCache.
Context {S K V : Type}.
Variable K_eqb : K -> K -> bool.
Variable maxsize : nat.
Variable user_function : K -> M S V.

Fixpoint cache_get (key : K) (cache : list (K * V)) : option V :=
  match cache with
  | [] => None
  | (k, v) :: rest => if K_eqb key k then Some v else cache_get key rest
  end.

Definition cache_remove (key : K) (cache : list (K * V)) : list (K * V) :=
  filter (fun entry => negb (K_eqb key (fst entry))) cache.

Definition cache_store (key : K) (result : V) (cache : list (K * V))
    : list (K * V) :=
  (key, result)
    :: (if (maxsize <=? List.length cache)%nat then removelast cache else cache).

Definition lru_cache (cache : list (K * V)) (key : K)
    : World S -> option (Outcome V * list (K * V) * World S) :=
  fun w =>
    match cache_get key cache with
    | Some result => Some (Return result, (key, result) :: cache_remove key cache, w)
    | None =>
        match user_function key w with
        | None => None
        | Some (Return result, w') =>
            Some (Return result, cache_store key result cache, w')
        | Some (Raise e, w') => Some (Raise e, cache, w')
        end
    end.
End LruCache.

(** The position of a key in the cache, 0 for the most recently used. *)
Fixpoint cache_index {K V} (K_eqb : K -> K -> bool) (key : K)
    (cache : list (K * V)) : option nat :=
  match cache with
  | [] => None
  | (k, _) :: rest =>
      if K_eqb key k then Some 0%nat
      else option_map Datatypes.S (cache_index K_eqb key rest)
  end.

(** [bytes.__eq__] *)
Fixpoint bytes_eqb (a b : list Byte.byte) : bool :=
  match a, b with
  | [], [] => true
  | x :: a', y :: b' => Byte.eqb x y && bytes_eqb a' b'
  | _, _ => false
  end.

(** The key [lru_cache] makes of the keyword arguments [web3] and
    [address], passed in this order: the web3 object, hashed and
    compared by identity, and the address string as it is written. *)
Definition ContractKey : Type := nat * string.

Definition contract_key_eqb (k1 k2 : ContractKey) : bool :=
  Nat.eqb (fst k1) (fst k2) && String.eqb (snd k1) (snd k2).

Definition lru_cache_default_maxsize : nat := 128.

Definition retryable_default_max_attempts : Z := 10.

Section IsContract.
Context {S : Type}.
(** [eth_utils.to_checksum_address]: the checksummed form of an
    address, or an exception for what is not an address. *)
Variable to_checksum_address : string -> Outcome string.
(** [web3.eth.get_code(address)] on the web3 object [web3]. *)
Variable eth_get_code : nat -> string -> S -> Outcome (list Byte.byte) * S.

Definition to_address (a : string) : Outcome string := to_checksum_address a.

(** The function as written, before the decorators. *)
Definition is_contract_body (web3 : nat) (address : string)
    : S -> Outcome bool * S :=
  fun s =>
    match to_address address with
    | Raise e => (Raise e, s)
    | Return a =>
        match eth_get_code web3 a s with
        | (Raise e, s') => (Raise e, s')
        | (Return code, s') =>
            (Return (negb (bytes_eqb code [Byte.x00]) && negb (bytes_eqb code [])), s')
        end
    end.

(** [is_contract(web3=..., address=...)] with both decorators:
    [retryable()] inside, [lru_cache()] outside. *)
Definition is_contract (fuel : nat) (cache : list (ContractKey * bool))
    (web3 : nat) (address : string)
    : World S -> option (Outcome bool * list (ContractKey * bool) * World S) :=
  lru_cache contract_key_eqb lru_cache_default_maxsize
    (fun key => retryable (is_contract_body (fst key) (snd key)) fuel
                          retryable_default_max_attempts)
    cache (web3, address).
End IsContract.

(** A node for the contract test: the state is the code at the (one)
    address asked about; addresses that start with "0x" are valid. *)
Definition demo_checksum (a : string) : Outcome string :=
  if String.prefix "0x" a then Return a
  else Raise (ValueError "Unknown format, attempted to convert to bytes").

Definition demo_get_code (web3 : nat) (a : string) (code : list Byte.byte)
    : Outcome (list Byte.byte) * list Byte.byte :=
  (Return code, code).

(** * Properties *)

(** ** Traces *)

Lemma effects_app tr1 tr2 : effects (tr1 ++ tr2) = effects tr1 ++ effects tr2.
Proof. apply filter_app. Qed.

Lemma sleeps_app tr1 tr2 : sleeps (tr1 ++ tr2) = sleeps tr1 ++ sleeps tr2.
Proof. apply flat_map_app. Qed.

Lemma calls_app tr1 tr2 : calls (tr1 ++ tr2) = calls tr1 ++ calls tr2.
Proof. apply filter_app. Qed.

Lemma getLogs_ranges_app tr1 tr2 :
  getLogs_ranges (tr1 ++ tr2) = getLogs_ranges tr1 ++ getLogs_ranges tr2.
Proof. apply flat_map_app. Qed.

Lemma probes_app tr1 tr2 : probes (tr1 ++ tr2) = probes tr1 ++ probes tr2.
Proof. apply flat_map_app. Qed.

(** Log lines are neither sleeps nor calls. *)
Lemma sleeps_effects tr : sleeps (effects tr) = sleeps tr.
Proof.
  induction tr as [|e tr IH]; [reflexivity|].
  destruct e; simpl; rewrite ?IH; reflexivity.
Qed.

Lemma calls_effects tr : calls (effects tr) = calls tr.
Proof.
  induction tr as [|e tr IH]; [reflexivity|].
  destruct e; simpl; rewrite ?IH; reflexivity.
Qed.

Lemma getLogs_ranges_effects tr : getLogs_ranges (effects tr) = getLogs_ranges tr.
Proof.
  induction tr as [|e tr IH]; [reflexivity|].
  destruct e; simpl; rewrite ?IH; reflexivity.
Qed.

Lemma sleeps_backoff_trace call k attempt :
  is_call call = true ->
  sleeps (backoff_trace call k attempt)
  = map (fun i => Z.min (2 ^ (attempt + Z.of_nat i)) 256) (seq 0 k).
Proof.
  intros Hc. revert attempt.
  induction k as [|k IH]; intros attempt.
  - destruct call; simpl in *; try discriminate; reflexivity.
  - cbn [backoff_trace seq map].
    replace (sleeps (call :: Ev_sleep (Z.min (2 ^ attempt) 256)
                          :: backoff_trace call k (attempt + 1)))
      with (Z.min (2 ^ attempt) 256 :: sleeps (backoff_trace call k (attempt + 1)))
      by (destruct call; simpl in *; try discriminate; reflexivity).
    rewrite IH, <- seq_shift, map_map, Z.add_0_r.
    f_equal. apply map_ext. intros i. do 2 f_equal. lia.
Qed.

Lemma calls_backoff_trace call k attempt :
  is_call call = true ->
  calls (backoff_trace call k attempt) = repeat call (Datatypes.S k).
Proof.
  intros Hc. revert attempt.
  induction k as [|k IH]; intros attempt.
  - destruct call; simpl in *; try discriminate; reflexivity.
  - cbn [backoff_trace].
    replace (calls (call :: Ev_sleep (Z.min (2 ^ attempt) 256)
                         :: backoff_trace call k (attempt + 1)))
      with (call :: calls (backoff_trace call k (attempt + 1)))
      by (destruct call; simpl in *; try discriminate; reflexivity).
    rewrite IH. reflexivity.
Qed.

(** ** Retrying *)

Section RetryFacts.
Context {S T : Type}.
Variable func : S -> Outcome T * S.

(** [k] failures followed by a success, with budget left for each of
    the failures: the loop returns the success value, and the world has
    seen call, sleep, ..., call with the sleeps of attempts
    [attempt, attempt + 1, ...]. *)
Lemma wrapped_loop_succeeds :
  forall k fuel max_attempts attempt v s tr,
    fails_then_succeeds func k v s ->
    attempt + Z.of_nat k <= max_attempts ->
    (k < fuel)%nat ->
    exists tr',
      wrapped_loop func fuel max_attempts attempt (mkWorld s tr)
      = Some (Return v, mkWorld (state_after func (Datatypes.S k) s) (tr ++ tr'))
      /\ effects tr' = backoff_trace Ev_call k attempt.
Proof.
  induction k as [|k IH]; intros fuel m attempt v s tr Hf Hm Hfuel.
  - destruct fuel as [|fuel]; [lia|].
    destruct Hf as [s' Hs].
    exists [Ev_call]. split; [|reflexivity].
    cbn. unfold try_except, remote. cbn. rewrite Hs. reflexivity.
  - destruct fuel as [|fuel]; [lia|].
    destruct Hf as (e & s' & Hs & Hrest).
    destruct (IH fuel m (attempt + 1) v s'
                (((tr ++ [Ev_call])
                    ++ [Ev_log WARNING "Retryable error (attempt: %s/%s): %s"])
                   ++ [Ev_sleep (Z.min (2 ^ attempt) 256)]) Hrest)
      as (tr' & Hrun & Heff); [lia | lia |].
    exists ([Ev_call; Ev_log WARNING "Retryable error (attempt: %s/%s): %s";
             Ev_sleep (Z.min (2 ^ attempt) 256)] ++ tr').
    split.
    + cbn [wrapped_loop]. unfold try_except at 1, remote at 1. cbn [node trace].
      rewrite Hs.
      destruct (attempt >=? m) eqn:E; [lia|].
      unfold bind, logger, exponential_sleep, sleep, emit, default_max_sleep_time.
      cbn [node trace].
      rewrite Hrun. cbn [state_after]. rewrite Hs. cbn [snd].
      repeat rewrite <- app_assoc. reflexivity.
    + rewrite effects_app, Heff. reflexivity.
Qed.

(** A function that always fails exhausts the budget: the loop raises
    what the last call raised, as it is. *)
Lemma wrapped_loop_exhausts :
  always_fails func ->
  forall n fuel max_attempts attempt s tr,
    0 <= attempt ->
    max_attempts - attempt = Z.of_nat n ->
    (n < fuel)%nat ->
    exists e tr',
      wrapped_loop func fuel max_attempts attempt (mkWorld s tr)
      = Some (Raise e, mkWorld (state_after func (Datatypes.S n) s) (tr ++ tr'))
      /\ fst (func (state_after func n s)) = Raise e
      /\ calls tr' = repeat Ev_call (Datatypes.S n)
      /\ sleeps tr'
         = map (fun i => Z.min (2 ^ (attempt + Z.of_nat i)) 256) (seq 0 n).
Proof.
  intros Hall.
  induction n as [|n IH]; intros fuel m attempt s tr Ha Hm Hfuel.
  - destruct fuel as [|fuel]; [lia|].
    destruct (Hall s) as [e He].
    destruct (func s) as [r s'] eqn:Hs. cbn in He. subst r.
    exists e, [Ev_call; Ev_log WARNING "max attempts (%s) exchusted for error: %s"].
    cbn [wrapped_loop]. unfold try_except, remote. cbn [node trace].
    rewrite Hs.
    destruct (attempt >=? m) eqn:E; [|lia].
    unfold bind, logger, raise, emit. cbn [node trace state_after].
    rewrite Hs. cbn [snd fst].
    rewrite <- app_assoc. repeat split; reflexivity.
  - destruct fuel as [|fuel]; [lia|].
    destruct (Hall s) as [e He].
    destruct (func s) as [r s'] eqn:Hs. cbn in He. subst r.
    destruct (IH fuel m (attempt + 1) s'
                (((tr ++ [Ev_call])
                    ++ [Ev_log WARNING "Retryable error (attempt: %s/%s): %s"])
                   ++ [Ev_sleep (Z.min (2 ^ attempt) 256)]))
      as (e' & tr' & Hrun & Hlast & Hcalls & Hsleeps); [lia | lia | lia |].
    exists e', ([Ev_call; Ev_log WARNING "Retryable error (attempt: %s/%s): %s";
                 Ev_sleep (Z.min (2 ^ attempt) 256)] ++ tr').
    cbn [wrapped_loop]. unfold try_except at 1, remote at 1. cbn [node trace].
    rewrite Hs.
    destruct (attempt >=? m) eqn:E; [lia|].
    unfold bind, logger, exponential_sleep, sleep, emit, default_max_sleep_time.
    cbn [node trace].
    rewrite Hrun. cbn [state_after]. rewrite Hs. cbn [snd].
    repeat rewrite <- app_assoc.
    split; [reflexivity|]. split; [exact Hlast|]. split.
    + rewrite calls_app, Hcalls. reflexivity.
    + rewrite sleeps_app, Hsleeps. cbn [seq map]. cbn [sleeps flat_map app].
      rewrite Z.add_0_r, <- seq_shift, map_map. f_equal.
      apply map_ext. intros i. do 2 f_equal. lia.
Qed.
End RetryFacts.

Section BatchFacts.
Context {S Rec Filter : Type}.
Variable getLogs : Z -> Z -> Filter -> S -> Outcome (list Rec) * S.

(** The fetcher's own retry loop sleeps for attempt number
    [initial_retries - retries + 1] after a failure: one more than the
    number of failures before it. *)
Lemma batch_loop_succeeds :
  forall k fuel a b flt initial_retries retries v s tr,
    fails_then_succeeds (getLogs a b flt) k v s ->
    Z.of_nat k <= retries ->
    (k < fuel)%nat ->
    exists tr',
      batch_loop getLogs fuel a b flt initial_retries retries (mkWorld s tr)
      = Some (Return v,
              mkWorld (state_after (getLogs a b flt) (Datatypes.S k) s) (tr ++ tr'))
      /\ effects tr'
         = backoff_trace (Ev_getLogs a b) k (initial_retries - retries + 1).
Proof.
  induction k as [|k IH]; intros fuel a b flt ini retries v s tr Hf Hm Hfuel.
  - destruct fuel as [|fuel]; [lia|].
    destruct Hf as [s' Hs].
    exists [Ev_getLogs a b]. split; [|reflexivity].
    cbn. unfold try_except, remote. cbn. rewrite Hs. reflexivity.
  - destruct fuel as [|fuel]; [lia|].
    destruct Hf as (e & s' & Hs & Hrest).
    destruct (IH fuel a b flt ini (retries - 1) v s'
                (((tr ++ [Ev_getLogs a b])
                    ++ [Ev_log WARNING "error in get_all_entries: %s, retrying (%s)"])
                   ++ [Ev_sleep (Z.min (2 ^ (ini - (retries - 1))) 256)]) Hrest)
      as (tr' & Hrun & Heff); [lia | lia |].
    exists ([Ev_getLogs a b;
             Ev_log WARNING "error in get_all_entries: %s, retrying (%s)";
             Ev_sleep (Z.min (2 ^ (ini - (retries - 1))) 256)] ++ tr').
    split.
    + cbn [batch_loop]. unfold try_except at 1, remote at 1. cbn [node trace].
      rewrite Hs.
      destruct (retries <=? 0) eqn:E; [lia|].
      unfold bind, logger, exponential_sleep, sleep, emit, default_max_sleep_time.
      cbn [node trace].
      rewrite Hrun. cbn [state_after]. rewrite Hs. cbn [snd].
      repeat rewrite <- app_assoc. reflexivity.
    + rewrite effects_app, Heff. cbn [effects filter is_log negb app backoff_trace].
      replace (ini - (retries - 1) + 1) with (ini - retries + 1 + 1) by lia.
      replace (ini - (retries - 1)) with (ini - retries + 1) by lia.
      reflexivity.
Qed.

Lemma batch_loop_exhausts :
  forall a b flt, always_fails (getLogs a b flt) ->
  forall n fuel initial_retries retries s tr,
    Z.to_nat retries = n ->
    (n < fuel)%nat ->
    exists e tr',
      batch_loop getLogs fuel a b flt initial_retries retries (mkWorld s tr)
      = Some (Raise e,
              mkWorld (state_after (getLogs a b flt) (Datatypes.S n) s) (tr ++ tr'))
      /\ fst (getLogs a b flt (state_after (getLogs a b flt) n s)) = Raise e
      /\ calls tr' = repeat (Ev_getLogs a b) (Datatypes.S n)
      /\ sleeps tr'
         = map (fun i => Z.min (2 ^ (initial_retries - retries + 1 + Z.of_nat i)) 256)
               (seq 0 n).
Proof.
  intros a b flt Hall.
  induction n as [|n IH]; intros fuel ini retries s tr Hm Hfuel.
  - destruct fuel as [|fuel]; [lia|].
    destruct (Hall s) as [e He].
    destruct (getLogs a b flt s) as [r s'] eqn:Hs. cbn in He. subst r.
    exists e, [Ev_getLogs a b].
    cbn [batch_loop]. unfold try_except, remote. cbn [node trace].
    rewrite Hs.
    destruct (retries <=? 0) eqn:E; [|lia].
    unfold raise. cbn [state_after]. rewrite Hs. cbn [snd fst].
    repeat split; reflexivity.
  - destruct fuel as [|fuel]; [lia|].
    destruct (Hall s) as [e He].
    destruct (getLogs a b flt s) as [r s'] eqn:Hs. cbn in He. subst r.
    destruct (IH fuel ini (retries - 1) s'
                (((tr ++ [Ev_getLogs a b])
                    ++ [Ev_log WARNING "error in get_all_entries: %s, retrying (%s)"])
                   ++ [Ev_sleep (Z.min (2 ^ (ini - (retries - 1))) 256)]))
      as (e' & tr' & Hrun & Hlast & Hcalls & Hsleeps); [lia | lia |].
    exists e', ([Ev_getLogs a b;
                 Ev_log WARNING "error in get_all_entries: %s, retrying (%s)";
                 Ev_sleep (Z.min (2 ^ (ini - (retries - 1))) 256)] ++ tr').
    cbn [batch_loop]. unfold try_except at 1, remote at 1. cbn [node trace].
    rewrite Hs.
    destruct (retries <=? 0) eqn:E; [lia|].
    unfold bind, logger, exponential_sleep, sleep, emit, default_max_sleep_time.
    cbn [node trace].
    rewrite Hrun. cbn [state_after]. rewrite Hs. cbn [snd].
    repeat rewrite <- app_assoc.
    split; [reflexivity|]. split; [exact Hlast|]. split.
    + rewrite calls_app, Hcalls. reflexivity.
    + rewrite sleeps_app, Hsleeps. cbn [seq map]. cbn [sleeps flat_map app].
      rewrite Z.add_0_r, <- seq_shift, map_map.
      replace (ini - (retries - 1)) with (ini - retries + 1) by lia.
      f_equal.
      apply map_ext. intros i. do 2 f_equal. lia.
Qed.
End BatchFacts.

(** The decorator's schedule: a function that fails [k] times and then
    returns, retried with [max_attempts > k], is called [k + 1] times and
    the sleeps between the calls are 1, 2, 4, ..., 2^(k-1) seconds, each
    capped at 256. *)
Lemma retryable_backoff :
  forall (S T : Type) (func : S -> Outcome T * S)
         (k : nat) (v : T) (max_attempts : Z) (fuel : nat) (w : World S),
    fails_then_succeeds func k v (node w) ->
    Z.of_nat k < max_attempts ->
    (k < fuel)%nat ->
    exists tr,
      retryable func fuel max_attempts w
      = Some (Return v,
              mkWorld (state_after func (Datatypes.S k) (node w)) (trace w ++ tr))
      /\ calls tr = repeat Ev_call (Datatypes.S k)
      /\ sleeps tr = spec_sleeps k
      /\ effects tr = backoff_trace Ev_call k 0.
Proof.
  intros S T func k v m fuel [s tr0] Hf Hm Hfuel. cbn [node trace] in *.
  destruct (wrapped_loop_succeeds func k fuel m 0 v s tr0 Hf) as (tr & Hrun & Heff);
    [lia | lia |].
  exists tr. split; [exact Hrun|].
  split; [|split; [|exact Heff]].
  - rewrite <- calls_effects, Heff. apply calls_backoff_trace. reflexivity.
  - rewrite <- sleeps_effects, Heff, sleeps_backoff_trace by reflexivity.
    reflexivity.
Qed.

(** The fetcher's own loop under the same conditions: [k + 1] calls, and
    sleeps of 2, 4, ..., 2^k seconds, each capped at 256. *)
Lemma get_event_batch_with_retries_backoff :
  forall (S Rec Filter : Type)
         (getLogs : Z -> Z -> Filter -> S -> Outcome (list Rec) * S)
         (a b : Z) (flt : Filter)
         (k : nat) (v : list Rec) (retries : Z) (fuel : nat) (w : World S),
    fails_then_succeeds (getLogs a b flt) k v (node w) ->
    Z.of_nat k < retries ->
    (k < fuel)%nat ->
    exists tr,
      get_event_batch_with_retries getLogs fuel a b flt retries w
      = Some (Return v,
              mkWorld (state_after (getLogs a b flt) (Datatypes.S k) (node w))
                      (trace w ++ tr))
      /\ calls tr = repeat (Ev_getLogs a b) (Datatypes.S k)
      /\ sleeps tr = map (fun i => Z.min (2 ^ (Z.of_nat i + 1)) 256) (seq 0 k)
      /\ effects tr = backoff_trace (Ev_getLogs a b) k 1.
Proof.
  intros S Rec Filter getLogs a b flt k v retries fuel [s tr0] Hf Hm Hfuel.
  cbn [node trace] in *.
  destruct (batch_loop_succeeds getLogs k fuel a b flt retries retries v s tr0 Hf)
    as (tr & Hrun & Heff); [lia | lia |].
  replace (retries - retries + 1) with 1 in Heff by lia.
  exists tr. split; [exact Hrun|].
  split; [|split; [|exact Heff]].
  - rewrite <- calls_effects, Heff. apply calls_backoff_trace. reflexivity.
  - rewrite <- sleeps_effects, Heff, sleeps_backoff_trace by reflexivity.
    apply map_ext. intros i. do 2 f_equal. lia.
Qed.

(** C3: an operation that fails three times and then succeeds.  Behind
    the decorator it is called four times with sleeps of 1, 2 and 4
    seconds, as the specification says; in the fetcher's
    [get_event_batch_with_retries] it is called four times as well, but
    the sleeps are 2, 4 and 8 seconds: there the counter is decremented
    before the sleep time is computed from it. *)
Theorem C3_fetcher_backoff_starts_at_two_seconds :
  spec_sleeps 3 = [1; 2; 4]
  /\ (exists w,
        retryable (flaky 3 7) 11 10 (fresh 0%nat) = Some (Return 7, w)
        /\ calls (trace w) = repeat Ev_call 4
        /\ sleeps (trace w) = [1; 2; 4])
  /\ (exists w,
        get_event_batch_with_retries (flaky_getLogs 3) 11 100 200 tt 10 (fresh 0%nat)
        = Some (Return [100; 200], w)
        /\ calls (trace w) = repeat (Ev_getLogs 100 200) 4
        /\ sleeps (trace w) = [2; 4; 8]).
Proof.
  split; [reflexivity|].
  split; eexists; (split; [vm_compute; reflexivity|]); split; reflexivity.
Qed.

(** C4 as stated fails: after the budget is used up the caller does not
    see a [RetriesExhaustedError] around the last error. *)
Lemma C4_no_wrapping_counterexample :
  ~ (exists cause attempts w,
       retryable broken 11 2 (fresh 0%nat)
       = Some (Raise (RetriesExhaustedError cause attempts), w))
  /\ ~ (exists cause attempts w,
          get_event_batch_with_retries broken_getLogs 11 100 200 tt 2 (fresh 0%nat)
          = Some (Raise (RetriesExhaustedError cause attempts), w)).
Proof.
  split; intros (cause & attempts & w & H); vm_compute in H; discriminate H.
Qed.

(** C4, amended: an operation that fails on every call, retried with a
    budget of [m >= 0], is called exactly [m + 1] times, and then the
    error of the last call is raised to the caller as it is (no wrapper,
    no attempt count); this holds for the decorator and for the
    fetcher's own loop. *)
Theorem C4_exhausted_retries_reraise_last_error :
  forall (S T S' Rec Filter : Type)
         (func : S -> Outcome T * S)
         (getLogs : Z -> Z -> Filter -> S' -> Outcome (list Rec) * S')
         (a b : Z) (flt : Filter) (m : Z) (fuel : nat)
         (w : World S) (w' : World S'),
    always_fails func ->
    always_fails (getLogs a b flt) ->
    0 <= m ->
    (Z.to_nat m < fuel)%nat ->
    (exists e tr,
       retryable func fuel m w
       = Some (Raise e,
               mkWorld (state_after func (Datatypes.S (Z.to_nat m)) (node w))
                       (trace w ++ tr))
       /\ fst (func (state_after func (Z.to_nat m) (node w))) = Raise e
       /\ Z.of_nat (List.length (calls tr)) = m + 1
       /\ calls tr = repeat Ev_call (Datatypes.S (Z.to_nat m)))
    /\ (exists e tr,
          get_event_batch_with_retries getLogs fuel a b flt m w'
          = Some (Raise e,
                  mkWorld (state_after (getLogs a b flt) (Datatypes.S (Z.to_nat m))
                                       (node w'))
                          (trace w' ++ tr))
          /\ fst (getLogs a b flt (state_after (getLogs a b flt) (Z.to_nat m) (node w')))
             = Raise e
          /\ Z.of_nat (List.length (calls tr)) = m + 1
          /\ calls tr = repeat (Ev_getLogs a b) (Datatypes.S (Z.to_nat m))).
Proof.
  intros S T S' Rec Filter func getLogs a b flt m fuel [s tr0] [s' tr0']
         Hfunc Hlogs Hm Hfuel.
  cbn [node trace]. split.
  - destruct (wrapped_loop_exhausts func Hfunc (Z.to_nat m) fuel m 0 s tr0)
      as (e & tr & Hrun & Hlast & Hcalls & _); [lia | lia | lia |].
    exists e, tr. repeat split; try assumption.
    rewrite Hcalls, repeat_length. lia.
  - destruct (batch_loop_exhausts getLogs a b flt Hlogs (Z.to_nat m) fuel m m s' tr0')
      as (e & tr & Hrun & Hlast & Hcalls & _); [lia | lia |].
    exists e, tr. repeat split; try assumption.
    rewrite Hcalls, repeat_length. lia.
Qed.

(** ** Batched log fetching *)

(** Each block of [[a, b]] lies in exactly one range of a partition of
    [[a, b]], and no other block lies in any. *)
Lemma partitions_covers_once a b rs :
  partitions a b rs ->
  forall n, List.length (filter (covers n) rs)
            = if (a <=? n) && (n <=? b) then 1%nat else 0%nat.
Proof.
  induction 1 as [a b Hab | a m b rs Ham Hmb Hrs IH]; intros n.
  - cbn [filter]. unfold covers. cbn [fst snd].
    destruct ((a <=? n) && (n <=? b)); reflexivity.
  - cbn [filter]. unfold covers at 1. cbn [fst snd].
    specialize (IH n).
    destruct (a <=? n) eqn:E1, (n <=? m) eqn:E2, (n <=? b) eqn:E3,
             (m + 1 <=? n) eqn:E4;
      cbn [andb List.length] in *; try rewrite IH; try reflexivity; lia.
Qed.

Lemma getLogs_ranges_events rs : getLogs_ranges (map getLogs_event rs) = rs.
Proof.
  induction rs as [|[a b] rs IH]; [reflexivity|].
  cbn. f_equal. exact IH.
Qed.

Section FetcherFacts.
Context {S Rec Filter : Type}.
Variable getLogs : Z -> Z -> Filter -> S -> Outcome (list Rec) * S.
Variable logs : Z -> Z -> Filter -> list Rec.
Hypothesis node_reliable : reliable getLogs logs.
Hypothesis logs_concatenative : concatenative logs.

Lemma get_event_batch_reliable fuel a b flt retries s tr :
  get_event_batch_with_retries getLogs (Datatypes.S fuel) a b flt retries (mkWorld s tr)
  = Some (Return (logs a b flt), mkWorld s (tr ++ [Ev_getLogs a b])).
Proof.
  unfold get_event_batch_with_retries. cbn [batch_loop].
  unfold try_except, remote. cbn [node trace].
  rewrite node_reliable. reflexivity.
Qed.

Lemma get_events_loop_done fuel to_block batch_size flt acc cursor s tr :
  to_block < cursor ->
  get_events_loop getLogs fuel to_block batch_size flt acc cursor (mkWorld s tr)
  = Some (Return acc,
          mkWorld s (tr ++ [Ev_log INFO "found %s events in total"])).
Proof.
  intros H.
  destruct fuel; cbn [get_events_loop];
    (destruct (cursor <=? to_block) eqn:E; [lia|]); reflexivity.
Qed.

Lemma get_events_loop_reliable to_block batch_size flt :
  0 <= batch_size ->
  forall fuel cursor acc s tr,
    cursor <= to_block ->
    (Z.to_nat (to_block - cursor + 1) <= fuel)%nat ->
    exists tr' rs,
      get_events_loop getLogs fuel to_block batch_size flt acc cursor (mkWorld s tr)
      = Some (Return (acc ++ logs cursor to_block flt), mkWorld s (tr ++ tr'))
      /\ effects tr' = map getLogs_event rs
      /\ partitions cursor to_block rs
      /\ Forall (fun r => range_width r <= batch_size + 1) rs.
Proof.
  intros Hbs.
  induction fuel as [|fuel IH]; intros cursor acc s tr Hc Hfuel; [lia|].
  cbn [get_events_loop].
  destruct (cursor <=? to_block) eqn:E; [|lia].
  unfold bind at 1, logger at 1, emit at 1. cbn [node trace].
  unfold bind at 1. rewrite get_event_batch_reliable.
  set (batch_to := Z.min (cursor + batch_size) to_block).
  set (tr1 := (tr ++ [Ev_log INFO "fetching batch from %s to %s (up to %s)"])
                ++ [Ev_getLogs cursor batch_to]).
  set (found := if 0 <? Z.of_nat (List.length (logs cursor batch_to flt))
                then [Ev_log INFO "found %s events in batch"] else []).
  assert (Hfound : forall (k : M S (list Rec)),
             bind (if 0 <? Z.of_nat (List.length (logs cursor batch_to flt))
                   then logger INFO "found %s events in batch" else ret tt)
                  (fun _ => k) (mkWorld s tr1)
             = k (mkWorld s (tr1 ++ found))).
  { intros k. unfold found.
    destruct (0 <? Z.of_nat (List.length (logs cursor batch_to flt)));
      unfold bind, logger, emit, ret; cbn [node trace];
      rewrite ?app_nil_r; reflexivity. }
  rewrite Hfound.
  assert (Hefound : effects found = []).
  { unfold found.
    destruct (0 <? Z.of_nat (List.length (logs cursor batch_to flt))); reflexivity. }
  destruct (Z.eq_dec batch_to to_block) as [Hlast | Hmore].
  - rewrite get_events_loop_done by lia.
    exists ([Ev_log INFO "fetching batch from %s to %s (up to %s)";
             Ev_getLogs cursor batch_to] ++ found
            ++ [Ev_log INFO "found %s events in total"]),
           [(cursor, to_block)].
    split; [|split; [|split]].
    + unfold tr1. rewrite Hlast. repeat rewrite <- app_assoc. reflexivity.
    + rewrite !effects_app, Hefound, Hlast. reflexivity.
    + constructor. lia.
    + constructor; [|constructor]. unfold range_width. cbn [fst snd]. lia.
  - assert (Hbt : batch_to = cursor + batch_size) by lia.
    destruct (IH (batch_to + 1) (acc ++ logs cursor batch_to flt) s (tr1 ++ found))
      as (tr' & rs & Hrun & Heff & Hpart & Hwidth); [lia | lia |].
    exists ([Ev_log INFO "fetching batch from %s to %s (up to %s)";
             Ev_getLogs cursor batch_to] ++ found ++ tr'),
           ((cursor, batch_to) :: rs).
    split; [|split; [|split]].
    + rewrite Hrun. unfold tr1. repeat rewrite <- app_assoc.
      rewrite (logs_concatenative cursor batch_to to_block flt) by lia.
      reflexivity.
    + rewrite !effects_app, Hefound, Heff. reflexivity.
    + constructor; [lia | lia | exact Hpart].
    + constructor; [|exact Hwidth]. unfold range_width. cbn [fst snd]. lia.
Qed.
End FetcherFacts.

(** With a node that fails now and then the retries are invisible in
    the result: whatever [get_events] returns is what one fetch of the
    whole range answers, and an error that outlasts the retries of one
    batch is the outcome of the whole call. *)
Section FlakyNode.
Context {S Rec Filter : Type}.
Variable getLogs : Z -> Z -> Filter -> S -> Outcome (list Rec) * S.
Variable logs : Z -> Z -> Filter -> list Rec.
Hypothesis node_answers : answers_with getLogs logs.
Hypothesis logs_concatenative : concatenative logs.

Lemma batch_loop_sound :
  forall fuel a b flt initial_retries retries w v w',
    batch_loop getLogs fuel a b flt initial_retries retries w = Some (Return v, w') ->
    v = logs a b flt.
Proof.
  induction fuel as [|fuel IH]; intros a b flt ini retries w v w' H;
    [discriminate H|].
  cbn [batch_loop] in H. unfold try_except at 1, remote at 1 in H.
  destruct (getLogs a b flt (node w)) as [[v0 | e] s'] eqn:Hs.
  - inversion H; subst. apply (node_answers _ _ _ _ _ _ Hs).
  - destruct (retries <=? 0); [discriminate H|].
    unfold bind, logger, exponential_sleep, sleep, emit in H.
    cbn [node trace] in H. apply IH in H. exact H.
Qed.

Lemma get_events_loop_sound to_block batch_size flt :
  0 <= batch_size ->
  forall fuel cursor acc w evs w',
    cursor <= to_block ->
    get_events_loop getLogs fuel to_block batch_size flt acc cursor w
    = Some (Return evs, w') ->
    evs = acc ++ logs cursor to_block flt.
Proof.
  intros Hbs.
  induction fuel as [|fuel IH]; intros cursor acc w evs w' Hc H;
    cbn [get_events_loop] in H;
    (destruct (cursor <=? to_block) eqn:E; [|lia]); [discriminate H|].
  unfold bind at 1, logger at 1, emit at 1 in H. cbn [node trace] in H.
  unfold bind at 1 in H.
  unfold get_event_batch_with_retries in H.
  set (batch_to := Z.min (cursor + batch_size) to_block) in *.
  destruct (batch_loop getLogs (Datatypes.S fuel) cursor batch_to flt
              default_retries default_retries _)
    as [[[v | e] w1] |] eqn:Hb; try discriminate H.
  apply batch_loop_sound in Hb. subst v.
  unfold bind at 1 in H.
  destruct ((if 0 <? Z.of_nat (List.length (logs cursor batch_to flt))
             then logger INFO "found %s events in batch" else ret tt) w1)
    as [[[[] | e] w2] |] eqn:Hlog.
  - destruct (Z.eq_dec batch_to to_block) as [Hlast | Hmore].
    + destruct w2 as [s2 tr2].
      rewrite get_events_loop_done in H by lia.
      injection H as Hevs _. rewrite <- Hevs, Hlast. reflexivity.
    + apply IH in H; [|lia]. subst evs.
      rewrite (logs_concatenative cursor batch_to to_block flt) by lia.
      rewrite <- app_assoc. reflexivity.
  - destruct (0 <? Z.of_nat (List.length (logs cursor batch_to flt)));
      discriminate Hlog.
  - destruct (0 <? Z.of_nat (List.length (logs cursor batch_to flt)));
      discriminate Hlog.
Qed.

Lemma get_events_sound fuel from_block to_block batch_size flt w evs w' :
  0 <= batch_size ->
  get_events getLogs fuel from_block to_block batch_size flt w
  = Some (Return evs, w') ->
  evs = logs from_block to_block flt.
Proof.
  intros Hbs H. unfold get_events in H.
  destruct (to_block <? from_block) eqn:E; [discriminate H|].
  unfold bind at 1, logger at 1, emit at 1 in H. cbn [node trace] in H.
  apply get_events_loop_sound in H; [exact H | exact Hbs | lia].
Qed.

(** No partial result: when the retries of a batch are used up, its
    error ends the loop, whatever has been collected so far. *)
Lemma get_events_loop_aborts fuel to_block batch_size flt acc cursor w e w1 :
  cursor <= to_block ->
  get_event_batch_with_retries getLogs (Datatypes.S fuel) cursor
    (Z.min (cursor + batch_size) to_block) flt default_retries
    (mkWorld (node w)
       (trace w ++ [Ev_log INFO "fetching batch from %s to %s (up to %s)"]))
  = Some (Raise e, w1) ->
  get_events_loop getLogs (Datatypes.S fuel) to_block batch_size flt acc cursor w
  = Some (Raise e, w1).
Proof.
  intros Hc Hb. cbn [get_events_loop].
  destruct (cursor <=? to_block) eqn:E; [|lia].
  unfold bind at 1, logger at 1, emit at 1. cbn [node trace].
  unfold bind at 1. rewrite Hb. reflexivity.
Qed.
End FlakyNode.

(** C1: on a node that answers every [getLogs] request, with answers
    that are concatenative over adjacent ranges, [get_events] with
    [from_block <= to_block] and [batch_size >= 1] returns what a single
    fetch of [[from_block, to_block]] returns; its remote calls are one
    [getLogs] per sub-range and nothing else, and the sub-ranges, in
    the order fetched, partition [[from_block, to_block]]: adjacent,
    increasing, none wider than [batch_size + 1] blocks, every block of
    the range in exactly one of them. *)
Theorem C1_get_events_partitions_and_concatenates :
  forall (S Rec Filter : Type)
         (getLogs : Z -> Z -> Filter -> S -> Outcome (list Rec) * S)
         (logs : Z -> Z -> Filter -> list Rec)
         (from_block to_block batch_size : Z) (flt : Filter)
         (fuel : nat) (w : World S),
    reliable getLogs logs ->
    concatenative logs ->
    from_block <= to_block ->
    1 <= batch_size ->
    (Z.to_nat (to_block - from_block + 1) <= fuel)%nat ->
    exists evs tr rs,
      get_events getLogs fuel from_block to_block batch_size flt w
      = Some (Return evs, mkWorld (node w) (trace w ++ tr))
      /\ fst (getLogs from_block to_block flt (node w)) = Return evs
      /\ getLogs_ranges tr = rs
      /\ effects tr = map getLogs_event rs
      /\ partitions from_block to_block rs
      /\ Forall (fun r => 1 <= range_width r <= batch_size + 1) rs
      /\ (forall n, List.length (filter (covers n) rs)
                    = if (from_block <=? n) && (n <=? to_block)
                      then 1%nat else 0%nat).
Proof.
  intros S Rec Filter getLogs logs a b bs flt fuel [s tr0] Hrel Hcat Hab Hbs Hfuel.
  cbn [node trace].
  destruct (get_events_loop_reliable getLogs logs Hrel Hcat b bs flt ltac:(lia)
              fuel a [] s
              (tr0 ++ [Ev_log INFO "fetching events from %s to %s with batch size %s"])
              Hab Hfuel)
    as (tr & rs & Hrun & Heff & Hpart & Hwidth).
  exists (logs a b flt),
         ([Ev_log INFO "fetching events from %s to %s with batch size %s"] ++ tr), rs.
  split; [|split; [|split; [|split; [|split; [|split]]]]].
  - unfold get_events. destruct (b <? a) eqn:E; [lia|].
    unfold bind at 1, logger at 1, emit at 1. cbn [node trace].
    rewrite Hrun. rewrite <- app_assoc. reflexivity.
  - rewrite Hrel. reflexivity.
  - rewrite <- getLogs_ranges_effects, effects_app, Heff.
    apply getLogs_ranges_events.
  - rewrite effects_app, Heff. reflexivity.
  - exact Hpart.
  - clear Hrun Heff. induction Hpart as [a b Hab' | a m b rs Ham Hmb Hrs IH].
    + constructor; [|constructor].
      inversion Hwidth; subst. unfold range_width in *. cbn [fst snd] in *. lia.
    + inversion Hwidth; subst. constructor.
      * unfold range_width in *. cbn [fst snd] in *. lia.
      * apply IH; [lia | lia | assumption].
  - apply partitions_covers_once. exact Hpart.
Qed.

(** C5: with [to_block < from_block], [get_events] raises the
    [ValueError] that names the two bounds (the specification's
    [InvalidRangeError]) whatever the fuel, and the world is left as it
    was: no remote call, no sleep, no log line. *)
Theorem C5_get_events_rejects_inverted_range :
  forall (S Rec Filter : Type)
         (getLogs : Z -> Z -> Filter -> S -> Outcome (list Rec) * S)
         (from_block to_block batch_size : Z) (flt : Filter)
         (fuel : nat) (w : World S),
    to_block < from_block ->
    get_events getLogs fuel from_block to_block batch_size flt w
    = Some (Raise (ValueError ("to_block " ++ str to_block
                               ++ " is smaller than from_block "
                               ++ str from_block)%string),
            w).
Proof.
  intros S Rec Filter getLogs a b bs flt fuel w H.
  unfold get_events. destruct (b <? a) eqn:E; [reflexivity | lia].
Qed.

(** ** Closest-block bisection *)

Lemma data_ranges_within_sentinel c d :
  uint64_stamps c -> datetime_in_range d -> within_sentinel c (int_timestamp d).
Proof.
  intros Hs Hd n Hn. specialize (Hs n Hn).
  unfold datetime_in_range in Hd. unfold dist, initial_closest_diff.
  assert (2 ^ 64 + 2 ^ 63 < 2 ^ 256 - 1) by (vm_compute; reflexivity).
  lia.
Qed.

Section LocatorFacts.
Variable c : Chain.
Variable t : Z.

(** One iteration of the loop on a chain that does not change. *)
Lemma bisect_loop_step fuel lo hi cb cd tr :
  lo <= hi ->
  0 <= (lo + hi) / 2 <= latest c ->
  bisect_loop chain_web3 (Datatypes.S fuel) t lo hi cb cd (mkWorld c tr)
  = let mid := (lo + hi) / 2 in
    let w1 := mkWorld c (tr ++ [Ev_get_block mid; probe_log]) in
    let cb' := if dist c t mid <? cd then Some (block_of c mid) else cb in
    let cd' := if dist c t mid <? cd then dist c t mid else cd in
    if stamp c mid >? t then
      bisect_loop chain_web3 fuel t lo (mid - 1) cb' cd' w1
    else if stamp c mid <? t then
      bisect_loop chain_web3 fuel t (mid + 1) hi cb' cd' w1
    else Some (Return (Returned (block_of c mid)), w1).
Proof.
  intros Hlh Hmid.
  cbn [bisect_loop].
  destruct (lo <=? hi) eqn:E; [|lia].
  unfold bind at 1, remote at 1. cbn [node trace chain_web3 eth_get_block].
  destruct ((0 <=? (lo + hi) / 2) && ((lo + hi) / 2 <=? latest c)) eqn:E2; [|lia].
  unfold bind at 1, logger at 1, emit at 1. cbn [node trace].
  cbn [block_of timestamp number]. unfold dist, probe_log.
  rewrite <- app_assoc. cbn [app].
  destruct (Z.abs (stamp c ((lo + hi) / 2) - t) <? cd);
    destruct (stamp c ((lo + hi) / 2) >? t);
    destruct (stamp c ((lo + hi) / 2) <? t); reflexivity.
Qed.

Lemma bisect_loop_exit fuel lo hi cb cd w :
  hi < lo ->
  bisect_loop chain_web3 fuel t lo hi cb cd w = Some (Return (Fallthrough cb), w).
Proof.
  intros H. destruct fuel; cbn [bisect_loop];
    (destruct (lo <=? hi) eqn:E; [lia|]); reflexivity.
Qed.

(** Probing one more block keeps [closest_block] the first of the
    probed blocks at the least distance. *)
Lemma tracks_best_probe ps cb cd mid :
  within_sentinel c t ->
  1 <= mid <= latest c ->
  tracks_best c t ps cb cd ->
  tracks_best c t (ps ++ [mid])
    (if dist c t mid <? cd then Some (block_of c mid) else cb)
    (if dist c t mid <? cd then dist c t mid else cd).
Proof.
  intros Hw Hmid Ht.
  destruct cb as [b|]; cbn [tracks_best] in Ht.
  - destruct Ht as (Hb & Hcd & pre & post & Hps & Hpre & Hpost).
    destruct (dist c t mid <? cd) eqn:E.
    + cbn [tracks_best block_of number]. repeat split.
      exists ps, []. repeat split.
      * intros q Hq. subst ps. apply in_app_or in Hq.
        destruct Hq as [Hq | [Hq | Hq]].
        -- specialize (Hpre q Hq). lia.
        -- subst q. lia.
        -- specialize (Hpost q Hq). lia.
      * intros q [].
    + cbn [tracks_best]. repeat split; try assumption.
      exists pre, (post ++ [mid]). repeat split.
      * subst ps. rewrite <- app_assoc. reflexivity.
      * exact Hpre.
      * intros q Hq. apply in_app_or in Hq. destruct Hq as [Hq | [Hq | []]].
        -- apply Hpost, Hq.
        -- subst q. lia.
  - destruct Ht as [Hps Hcd]. subst ps cd.
    specialize (Hw mid Hmid).
    destruct (dist c t mid <? initial_closest_diff) eqn:E; [|lia].
    cbn [tracks_best block_of number app]. repeat split.
    exists [], []. repeat split; intros q [].
Qed.
Lemma midpoint_bounds lo hi : lo <= hi -> lo <= (lo + hi) / 2 <= hi.
Proof.
  intros H. split.
  - apply Z.div_le_lower_bound; lia.
  - apply Z.div_le_upper_bound; lia.
Qed.

(** The loop on a chain that does not change: it ends within
    [hi - lo + 1] iterations, fetches only blocks of [[lo, hi]], the
    midpoint first, and leaves the loop variables as [loop_post] says. *)
Lemma bisect_loop_chain :
  forall fuel lo hi cb cd ps tr,
    1 <= lo -> hi <= latest c -> lo <= hi + 1 ->
    (Z.to_nat (hi - lo + 1) <= fuel)%nat ->
    exists tr' exit,
      bisect_loop chain_web3 fuel t lo hi cb cd (mkWorld c tr)
      = Some (Return exit, mkWorld c (tr ++ tr'))
      /\ (forall q, In q (probes tr') -> lo <= q <= hi)
      /\ effects tr' = map Ev_get_block (probes tr')
      /\ (lo <= hi -> exists rest, probes tr' = (lo + hi) / 2 :: rest)
      /\ loop_post c t lo hi ps cb cd tr' exit.
Proof.
  induction fuel as [|fuel IH]; intros lo hi cb cd ps tr Hlo Hhi Hlh Hfuel.
  - exists [], (Fallthrough cb).
    rewrite bisect_loop_exit, app_nil_r by lia.
    split; [reflexivity|]. split; [intros q []|]. split; [reflexivity|].
    split; [lia|].
    cbn [loop_post probes flat_map]. rewrite app_nil_r.
    split; [intros q []|]. split; [tauto|].
    split; [intros _ Ht; exists cd; exact Ht|].
    intros _ Hb. exists hi. split; [lia|].
    replace (hi + 1) with lo by lia. exact Hb.
  - destruct (Z_lt_le_dec hi lo) as [Hempty | Hne].
    + exists [], (Fallthrough cb).
      rewrite bisect_loop_exit, app_nil_r by lia.
      split; [reflexivity|]. split; [intros q []|]. split; [reflexivity|].
      split; [lia|].
      cbn [loop_post probes flat_map]. rewrite app_nil_r.
      split; [intros q []|]. split; [tauto|].
      split; [intros _ Ht; exists cd; exact Ht|].
      intros _ Hb. exists hi. split; [lia|].
      replace (hi + 1) with lo by lia. exact Hb.
    + pose proof (midpoint_bounds lo hi Hne) as Hmid.
      rewrite bisect_loop_step by lia.
      set (mid := (lo + hi) / 2) in *.
      cbv zeta.
      set (cb1 := if dist c t mid <? cd then Some (block_of c mid) else cb).
      set (cd1 := if dist c t mid <? cd then dist c t mid else cd).
      assert (Hcb1 : cb <> None -> cb1 <> None).
      { unfold cb1. destruct (dist c t mid <? cd); [discriminate | tauto]. }
      assert (Htrack : within_sentinel c t -> tracks_best c t ps cb cd ->
                       tracks_best c t (ps ++ [mid]) cb1 cd1).
      { intros Hw Ht. apply tracks_best_probe; [exact Hw | lia | exact Ht]. }
      destruct (stamp c mid >? t) eqn:Egt; [|destruct (stamp c mid <? t) eqn:Elt].
      * (* the block is after the wanted time: move the end *)
        destruct (IH lo (mid - 1) cb1 cd1 (ps ++ [mid])
                     (tr ++ [Ev_get_block mid; probe_log]))
          as (tr2 & exit & Hrun & Hrange & Heff & _ & Hpost); try lia.
        exists ([Ev_get_block mid; probe_log] ++ tr2), exit.
        assert (Hprobes : probes ([Ev_get_block mid; probe_log] ++ tr2)
                          = mid :: probes tr2) by reflexivity.
        split; [rewrite Hrun, <- app_assoc; reflexivity|].
        rewrite Hprobes.
        split; [|split; [|split]].
        -- intros q [Hq | Hq]; [lia | specialize (Hrange q Hq); lia].
        -- rewrite effects_app, Heff. reflexivity.
        -- intros _. exists (probes tr2). reflexivity.
        -- destruct exit as [b | cb2]; cbn [loop_post] in *; rewrite Hprobes.
           ++ destruct Hpost as (pre & Hp & Hb & Hs & Hpre).
              exists (mid :: pre). rewrite Hp.
              split; [reflexivity|]. split; [exact Hb|]. split; [exact Hs|].
              intros q [Hq | Hq]; [subst q; lia | apply Hpre, Hq].
           ++ destruct Hpost as (Hne' & Hsome & Htr & Hbr).
              split; [intros q [Hq | Hq]; [subst q; lia | apply Hne', Hq]|].
              split; [tauto|].
              split.
              ** intros Hw Ht. destruct (Htr Hw (Htrack Hw Ht)) as [cd2 H2].
                 exists cd2. rewrite <- app_assoc in H2. exact H2.
              ** intros Hmono (B1 & B2 & B3 & B4).
                 destruct Hbr as (k & Hk & Hbk); [exact Hmono | |].
                 { repeat split.
                   - exact B1.
                   - intros j Hj. assert (stamp c mid <= stamp c j)
                       by (apply Hmono; lia). lia.
                   - intros H. apply in_or_app. left. apply B3, H.
                   - intros _. apply in_or_app. right.
                     replace (mid - 1 + 1) with mid by lia. left. reflexivity. }
                 exists k. split; [lia|].
                 rewrite <- app_assoc in Hbk. exact Hbk.
      * (* the block is before the wanted time: move the start *)
        destruct (IH (mid + 1) hi cb1 cd1 (ps ++ [mid])
                     (tr ++ [Ev_get_block mid; probe_log]))
          as (tr2 & exit & Hrun & Hrange & Heff & _ & Hpost); try lia.
        exists ([Ev_get_block mid; probe_log] ++ tr2), exit.
        assert (Hprobes : probes ([Ev_get_block mid; probe_log] ++ tr2)
                          = mid :: probes tr2) by reflexivity.
        split; [rewrite Hrun, <- app_assoc; reflexivity|].
        rewrite Hprobes.
        split; [|split; [|split]].
        -- intros q [Hq | Hq]; [lia | specialize (Hrange q Hq); lia].
        -- rewrite effects_app, Heff. reflexivity.
        -- intros _. exists (probes tr2). reflexivity.
        -- destruct exit as [b | cb2]; cbn [loop_post] in *; rewrite Hprobes.
           ++ destruct Hpost as (pre & Hp & Hb & Hs & Hpre).
              exists (mid :: pre). rewrite Hp.
              split; [reflexivity|]. split; [exact Hb|]. split; [exact Hs|].
              intros q [Hq | Hq]; [subst q; lia | apply Hpre, Hq].
           ++ destruct Hpost as (Hne' & Hsome & Htr & Hbr).
              split; [intros q [Hq | Hq]; [subst q; lia | apply Hne', Hq]|].
              split; [tauto|].
              split.
              ** intros Hw Ht. destruct (Htr Hw (Htrack Hw Ht)) as [cd2 H2].
                 exists cd2. rewrite <- app_assoc in H2. exact H2.
              ** intros Hmono (B1 & B2 & B3 & B4).
                 destruct Hbr as (k & Hk & Hbk); [exact Hmono | |].
                 { repeat split.
                   - intros j Hj. assert (stamp c j <= stamp c mid)
                       by (apply Hmono; lia). lia.
                   - exact B2.
                   - intros _. apply in_or_app. right.
                     replace (mid + 1 - 1) with mid by lia. left. reflexivity.
                   - intros H. apply in_or_app. left. apply B4, H. }
                 exists k. split; [lia|].
                 rewrite <- app_assoc in Hbk. exact Hbk.
      * (* the timestamps are the same: return the block *)
        exists [Ev_get_block mid; probe_log], (Returned (block_of c mid)).
        split; [reflexivity|].
        split; [intros q [Hq | []]; lia|].
        split; [reflexivity|].
        split; [intros _; exists []; reflexivity|].
        cbn [loop_post]. exists []. cbn.
        repeat split; [lia | intros q []].
Qed.
End LocatorFacts.

(** The whole function on a chain that does not change. *)
Lemma get_closest_block_chain c d not_before fuel tr :
  get_closest_block chain_web3 fuel d not_before (mkWorld c tr)
  = match bisect_loop chain_web3 fuel (int_timestamp d) 1 (latest c) None
            initial_closest_diff (mkWorld c (tr ++ search_prelude)) with
    | None => None
    | Some (Return (Returned b), w) => Some (Return b, w)
    | Some (Return (Fallthrough cb), w) => after_loop chain_web3 d not_before cb w
    | Some (Raise e, w) => Some (Raise e, w)
    end.
Proof.
  unfold get_closest_block, search_prelude.
  unfold bind at 1, logger at 1, emit at 1. cbn [node trace].
  unfold bind at 1, remote at 1. cbn [node trace chain_web3 eth_block_number].
  unfold bind at 1, logger at 1, emit at 1. cbn [node trace].
  repeat rewrite <- app_assoc. cbn [app].
  unfold bind.
  destruct (bisect_loop _ _ _ _ _ _ _ _) as [[[[b | cb] | e] w] |]; reflexivity.
Qed.

Lemma after_loop_chain c d not_before b tr :
  after_loop chain_web3 d not_before (Some b) (mkWorld c tr)
  = if not_before && (timestamp b <? int_timestamp d) then
      Some (if (0 <=? number b + 1) && (number b + 1 <=? latest c)
            then Return (block_of c (number b + 1))
            else Raise (BlockNotFound (number b + 1)),
            mkWorld c (tr ++ [next_block_log; Ev_get_block (number b + 1)]))
    else Some (Return b, mkWorld c tr).
Proof.
  unfold after_loop, next_block_log.
  destruct (not_before && (timestamp b <? int_timestamp d)); [|reflexivity].
  unfold bind, logger, emit, remote. cbn [node trace chain_web3 eth_get_block].
  rewrite <- app_assoc. cbn [app].
  destruct ((0 <=? number b + 1) && (number b + 1 <=? latest c)); reflexivity.
Qed.

(** The search on a chain that does not change, with enough fuel. *)
Lemma search_chain c d fuel tr :
  0 <= latest c ->
  (Z.to_nat (latest c) <= fuel)%nat ->
  exists tr' exit,
    bisect_loop chain_web3 fuel (int_timestamp d) 1 (latest c) None
      initial_closest_diff (mkWorld c (tr ++ search_prelude))
    = Some (Return exit, mkWorld c (tr ++ search_prelude ++ tr'))
    /\ (forall q, In q (probes tr') -> 1 <= q <= latest c)
    /\ effects tr' = map Ev_get_block (probes tr')
    /\ (1 <= latest c -> exists rest, probes tr' = (1 + latest c) / 2 :: rest)
    /\ loop_post c (int_timestamp d) 1 (latest c) [] None initial_closest_diff
                 tr' exit.
Proof.
  intros HN Hfuel.
  destruct (bisect_loop_chain c (int_timestamp d) fuel 1 (latest c) None
              initial_closest_diff [] (tr ++ search_prelude))
    as (tr' & exit & Hrun & H); try lia.
  exists tr', exit. rewrite Hrun, <- app_assoc. split; [reflexivity | exact H].
Qed.

Lemma first_closest_least c t ps n :
  first_closest c t ps n ->
  In n ps /\ forall q, In q ps -> dist c t n <= dist c t q.
Proof.
  intros (pre & post & Hps & Hpre & Hpost). subst ps. split.
  - apply in_or_app. right. left. reflexivity.
  - intros q Hq. apply in_app_or in Hq. destruct Hq as [Hq | [Hq | Hq]].
    + specialize (Hpre q Hq). lia.
    + subst q. lia.
    + apply Hpost, Hq.
Qed.

(** On a monotone chain a block that is at least as near as both
    blocks of the pair around [t] is as near as the nearer of the two
    and carries its timestamp. *)
Lemma nearest_of_pair c t k n :
  monotone c ->
  1 <= k -> k + 1 <= latest c ->
  stamp c k <= t < stamp c (k + 1) ->
  1 <= n <= latest c ->
  dist c t n <= dist c t k ->
  dist c t n <= dist c t (k + 1) ->
  dist c t n = Z.min (dist c t k) (dist c t (k + 1))
  /\ (dist c t k < dist c t (k + 1) -> stamp c n = stamp c k)
  /\ (dist c t (k + 1) < dist c t k -> stamp c n = stamp c (k + 1))
  /\ ((forall i j, 1 <= i -> i < j -> j <= latest c -> stamp c i < stamp c j) ->
      n = k \/ n = k + 1).
Proof.
  intros Hmono Hk Hk1 Ht Hn Dk Dk1. unfold dist in *.
  destruct (Z_le_gt_dec n k) as [Hle | Hgt].
  - pose proof (Hmono n k ltac:(lia) Hle ltac:(lia)) as M.
    repeat split; try lia.
    intros Hstrict. left.
    destruct (Z.eq_dec n k) as [|Hneq]; [assumption|].
    pose proof (Hstrict n k ltac:(lia) ltac:(lia) ltac:(lia)). lia.
  - pose proof (Hmono (k + 1) n ltac:(lia) ltac:(lia) ltac:(lia)) as M.
    repeat split; try lia.
    intros Hstrict. right.
    destruct (Z.eq_dec n (k + 1)) as [|Hneq]; [assumption|].
    pose proof (Hstrict (k + 1) n ltac:(lia) ltac:(lia) ltac:(lia)). lia.
Qed.

(** What the search comes to on a chain with at least one block: a block
    [n], the first of the probed blocks at the least distance; either
    [n] has the wanted timestamp, was the last block probed and is
    returned at once, or no probed block has the wanted timestamp and
    the statements after the loop run with [closest_block] block [n]. *)
Lemma search_outcome c d fuel tr :
  1 <= latest c ->
  within_sentinel c (int_timestamp d) ->
  (Z.to_nat (latest c) <= fuel)%nat ->
  exists n tr',
    1 <= n <= latest c
    /\ first_closest c (int_timestamp d) (probes tr') n
    /\ (forall q, In q (probes tr') -> 1 <= q <= latest c)
    /\ (exists rest, probes tr' = (1 + latest c) / 2 :: rest)
    /\ effects tr' = map Ev_get_block (probes tr')
    /\ ((stamp c n = int_timestamp d
         /\ (exists pre, probes tr' = pre ++ [n]
                         /\ forall q, In q pre -> stamp c q <> int_timestamp d)
         /\ forall not_before,
              get_closest_block chain_web3 fuel d not_before (mkWorld c tr)
              = Some (Return (block_of c n),
                      mkWorld c (tr ++ search_prelude ++ tr')))
        \/ ((forall q, In q (probes tr') -> stamp c q <> int_timestamp d)
            /\ (monotone c ->
                exists k, 0 <= k <= latest c
                          /\ bracketed c (int_timestamp d) (k + 1) k (probes tr'))
            /\ forall not_before,
                 get_closest_block chain_web3 fuel d not_before (mkWorld c tr)
                 = after_loop chain_web3 d not_before (Some (block_of c n))
                     (mkWorld c (tr ++ search_prelude ++ tr')))).
Proof.
  intros HN Hw Hfuel.
  destruct (search_chain c d fuel tr ltac:(lia) Hfuel)
    as (tr' & exit & Hrun & Hrange & Heff & Hfirst & Hpost).
  destruct exit as [b | cb]; cbn [loop_post] in Hpost.
  - destruct Hpost as (pre & Hp & Hb & Hs & Hpre).
    exists (number b), tr'.
    assert (Hin : In (number b) (probes tr'))
      by (rewrite Hp; apply in_or_app; right; left; reflexivity).
    split; [apply Hrange, Hin|].
    split.
    { exists pre, []. split; [exact Hp|]. split; [|intros q []].
      intros q Hq. specialize (Hpre q Hq). unfold dist. lia. }
    split; [exact Hrange|]. split; [apply Hfirst, HN|]. split; [exact Heff|].
    left. split; [exact Hs|]. split; [exists pre; split; assumption|].
    intros nb. rewrite get_closest_block_chain, Hrun, <- Hb. reflexivity.
  - destruct Hpost as (Hne & _ & Htr & Hbr).
    destruct (Htr Hw) as [cd' Hbest]; [split; reflexivity|].
    cbn [app] in Hbest.
    destruct cb as [b|]; cbn [tracks_best] in Hbest.
    2:{ destruct Hbest as [Hnil _]. destruct (Hfirst HN) as [rest Hrest].
        rewrite Hrest in Hnil. discriminate. }
    destruct Hbest as (Hb & _ & Hfc).
    exists (number b), tr'.
    split; [apply Hrange, (first_closest_least _ _ _ _ Hfc)|].
    split; [exact Hfc|].
    split; [exact Hrange|]. split; [apply Hfirst, HN|]. split; [exact Heff|].
    right. split; [exact Hne|]. split.
    + intros Hmono. destruct (Hbr Hmono) as (k & Hk & Hbk).
      * repeat split; intros; try lia.
      * exists k. split; [lia | exact Hbk].
    + intros nb. rewrite get_closest_block_chain, Hrun, <- Hb. reflexivity.
Qed.

(** C8: on a chain with [latest_block_number >= 1], whatever the
    timestamps (within their type) and whatever [not_before], the first
    iteration probes the midpoint block and stores it as
    [closest_block], its distance being below the initial
    [closest_diff]; the function ends and does not raise the
    [LookupError] (the specification's [NotFoundError]). *)
Theorem C8_lookup_error_unreachable :
  forall (c : Chain) (d : datetime) (not_before : bool) (fuel : nat)
         (tr : list Event),
    1 <= latest c ->
    uint64_stamps c ->
    datetime_in_range d ->
    (Z.to_nat (latest c) <= fuel)%nat ->
    let t := int_timestamp d in
    let mid := (1 + latest c) / 2 in
    (exists out tr',
       get_closest_block chain_web3 fuel d not_before (mkWorld c tr)
       = Some (out, mkWorld c (tr ++ tr'))
       /\ (forall msg, out <> Raise (LookupError msg))
       /\ exists rest, probes tr' = mid :: rest)
    /\ dist c t mid < initial_closest_diff
    /\ (forall fuel' tr1,
          bisect_loop chain_web3 (Datatypes.S fuel') t 1 (latest c) None
            initial_closest_diff (mkWorld c tr1)
          = let w1 := mkWorld c (tr1 ++ [Ev_get_block mid; probe_log]) in
            let best := Some (block_of c mid) in
            if stamp c mid >? t then
              bisect_loop chain_web3 fuel' t 1 (mid - 1) best (dist c t mid) w1
            else if stamp c mid <? t then
              bisect_loop chain_web3 fuel' t (mid + 1) (latest c) best
                          (dist c t mid) w1
            else Some (Return (Returned (block_of c mid)), w1)).
Proof.
  intros c d nb fuel tr HN Hs Hd Hfuel t mid.
  pose proof (data_ranges_within_sentinel c d Hs Hd) as Hw.
  pose proof (midpoint_bounds 1 (latest c) HN) as Hmid.
  fold mid in Hmid.
  assert (Hdist : dist c t mid < initial_closest_diff) by (apply Hw; lia).
  split; [|split; [exact Hdist|]].
  - destruct (search_outcome c d fuel tr HN Hw Hfuel)
      as (n & tr' & Hn & _ & _ & [rest Hrest] & _ & Hcases).
    destruct Hcases as [(_ & _ & Hrun) | (_ & _ & Hrun)].
    + exists (Return (block_of c n)), (search_prelude ++ tr').
      rewrite Hrun. split; [reflexivity|]. split; [discriminate|].
      exists rest. exact Hrest.
    + rewrite (Hrun nb), after_loop_chain.
      destruct (nb && (timestamp (block_of c n) <? int_timestamp d)).
      * eexists _, (search_prelude ++ tr' ++ [next_block_log; Ev_get_block _]).
        split; [rewrite <- !app_assoc; reflexivity|].
        split.
        -- intros msg.
           destruct ((0 <=? number (block_of c n) + 1)
                     && (number (block_of c n) + 1 <=? latest c)); discriminate.
        -- exists (rest ++ [number (block_of c n) + 1]).
           rewrite !probes_app, Hrest. reflexivity.
      * exists (Return (block_of c n)), (search_prelude ++ tr').
        split; [reflexivity|]. split; [discriminate|].
        exists rest. exact Hrest.
  - intros fuel' tr1. rewrite bisect_loop_step by lia. fold mid. cbv zeta.
    apply Z.ltb_lt in Hdist. rewrite Hdist. reflexivity.
Qed.

(** The range of the data matters: a timestamp of 2^256 is as far from
    0 as the initial [closest_diff] allows, nothing is stored, and the
    [LookupError] is raised. *)
Example lookup_error_beyond_uint64 :
  exists w,
    get_closest_block chain_web3 1 (at_time 0) false
      (fresh (chain_of_list [2 ^ 256]))
    = Some (Raise (LookupError
                     "Unable to determine block closest to 1970-01-01T00:00:00"),
            w).
Proof. eexists. vm_compute. reflexivity. Qed.

(** C7: on a monotone chain where some block of [1 .. latest] has
    exactly the wanted timestamp, the function returns, whatever
    [not_before], a block with that timestamp, and that block is the
    last one it fetched: no block fetched before it has the wanted
    timestamp, and nothing is fetched after it. *)
Theorem C7_exact_match_short_circuits :
  forall (c : Chain) (d : datetime) (fuel : nat) (tr : list Event) (j : Z),
    monotone c ->
    1 <= j <= latest c ->
    stamp c j = int_timestamp d ->
    (Z.to_nat (latest c) <= fuel)%nat ->
    exists n tr' pre,
      (forall not_before,
         get_closest_block chain_web3 fuel d not_before (mkWorld c tr)
         = Some (Return (block_of c n), mkWorld c (tr ++ tr')))
      /\ 1 <= n <= latest c
      /\ timestamp (block_of c n) = int_timestamp d
      /\ probes tr' = pre ++ [n]
      /\ (forall q, In q pre -> stamp c q <> int_timestamp d)
      /\ effects tr' = Ev_block_number :: map Ev_get_block (pre ++ [n]).
Proof.
  intros c d fuel tr j Hmono Hj Hstamp Hfuel.
  destruct (search_chain c d fuel tr ltac:(lia) Hfuel)
    as (tr' & exit & Hrun & Hrange & Heff & _ & Hpost).
  destruct exit as [b | cb]; cbn [loop_post] in Hpost.
  - destruct Hpost as (pre & Hp & Hb & Hs & Hpre).
    exists (number b), (search_prelude ++ tr'), pre.
    split; [|split; [|split; [|split; [|split]]]].
    + intros nb. rewrite get_closest_block_chain, Hrun, <- Hb. reflexivity.
    + apply Hrange. rewrite Hp. apply in_or_app. right. left. reflexivity.
    + exact Hs.
    + rewrite probes_app, Hp. reflexivity.
    + exact Hpre.
    + rewrite effects_app, Heff, Hp. reflexivity.
  - exfalso. destruct Hpost as (_ & _ & _ & Hbr).
    destruct (Hbr Hmono) as (k & Hk & B1 & B2 & _).
    { repeat split; intros; lia. }
    destruct (Z_le_gt_dec j k) as [Hle | Hgt].
    + specialize (B1 j ltac:(lia)). lia.
    + specialize (B2 j ltac:(lia)). lia.
Qed.

(** C2 as stated fails where timestamps repeat: on the chain stamped
    1, 1, 1, 10 with wanted timestamp 2 the pair around the target is
    blocks 3 and 4, and the function returns block 2. *)
Lemma C2_plateau_counterexample :
  let c := chain_of_list [1; 1; 1; 10] in
  monotone c
  /\ stamp c 3 <= 2 < stamp c 4
  /\ exists w,
       get_closest_block chain_web3 4 (at_time 2) false (fresh c)
       = Some (Return (mkBlock 2 1), w)
       /\ probes (trace w) = [2; 3; 4]
       /\ number (mkBlock 2 1) <> 3 /\ number (mkBlock 2 1) <> 4.
Proof.
  cbv zeta. split; [|split; [|eexists; split; [|split; [|split]]]].
  - intros i j Hi Hij Hj. cbn in Hj.
    assert (Hcases : (i = 1 \/ i = 2 \/ i = 3 \/ i = 4)
                     /\ (j = 1 \/ j = 2 \/ j = 3 \/ j = 4)) by lia.
    destruct Hcases as [[|[|[|]]] [|[|[|]]]]; subst; try lia;
      vm_compute; discriminate.
  - vm_compute. split; [discriminate | reflexivity].
  - vm_compute. reflexivity.
  - reflexivity.
  - cbn. lia.
  - cbn. lia.
Qed.

(** C2, amended: on a monotone chain, with [T(k) <= t < T(k+1)] and
    [not_before] false, the function returns a block that is as near to
    [t] as the nearer of blocks [k] and [k+1] and carries that block's
    timestamp; it is the first of the blocks it fetched at that least
    distance (the candidate is replaced only by a strictly nearer
    block), so when [k] and [k+1], both fetched unless [T(k) = t], are
    equally near, it is not after either of them; where timestamps
    increase strictly it is block [k] or block [k+1] itself. *)
Theorem C2_closest_block_is_nearest_of_pair :
  forall (c : Chain) (d : datetime) (fuel : nat) (tr : list Event) (k : Z),
    monotone c ->
    uint64_stamps c ->
    datetime_in_range d ->
    1 <= k -> k + 1 <= latest c ->
    stamp c k <= int_timestamp d < stamp c (k + 1) ->
    (Z.to_nat (latest c) <= fuel)%nat ->
    let t := int_timestamp d in
    exists n tr',
      get_closest_block chain_web3 fuel d false (mkWorld c tr)
      = Some (Return (block_of c n), mkWorld c (tr ++ tr'))
      /\ 1 <= n <= latest c
      /\ dist c t n = Z.min (dist c t k) (dist c t (k + 1))
      /\ (dist c t k < dist c t (k + 1) -> stamp c n = stamp c k)
      /\ (dist c t (k + 1) < dist c t k -> stamp c n = stamp c (k + 1))
      /\ first_closest c t (probes tr') n
      /\ (stamp c k < t -> In k (probes tr') /\ In (k + 1) (probes tr'))
      /\ ((forall i j, 1 <= i -> i < j -> j <= latest c -> stamp c i < stamp c j) ->
          n = k \/ n = k + 1).
Proof.
  intros c d fuel tr k Hmono Hs Hd Hk Hk1 Ht Hfuel t.
  pose proof (data_ranges_within_sentinel c d Hs Hd) as Hw.
  destruct (search_outcome c d fuel tr ltac:(lia) Hw Hfuel)
    as (n & tr' & Hn & Hfc & Hrange & _ & _ & Hcases).
  fold t in Hfc, Hcases, Ht.
  exists n, (search_prelude ++ tr').
  assert (Hprobes : probes (search_prelude ++ tr') = probes tr') by reflexivity.
  rewrite Hprobes.
  destruct Hcases as [(Hexact & _ & Hrun) | (Hne & Hbr & Hrun)].
  - (* an exact match was returned *)
    assert (Hdn : dist c t n = 0) by (unfold dist; lia).
    assert (Dk : dist c t n <= dist c t k) by (unfold dist in *; lia).
    assert (Dk1 : dist c t n <= dist c t (k + 1)) by (unfold dist in *; lia).
    destruct (nearest_of_pair c t k n Hmono Hk Hk1 Ht Hn Dk Dk1)
      as (H1 & H2 & H3 & H4).
    split; [apply Hrun|]. split; [exact Hn|]. split; [exact H1|].
    split; [exact H2|]. split; [exact H3|]. split; [exact Hfc|].
    split; [|exact H4].
    intros Hlt. exfalso.
    destruct (Z_le_gt_dec n k) as [Hle | Hgt].
    + pose proof (Hmono n k ltac:(lia) Hle ltac:(lia)). lia.
    + pose proof (Hmono (k + 1) n ltac:(lia) ltac:(lia) ltac:(lia)). lia.
  - (* the loop ran to its end *)
    destruct (Hbr Hmono) as (k' & Hk' & B1 & B2 & B3 & B4).
    assert (k' = k).
    { destruct (Z_lt_le_dec k' k) as [Hlt | Hge].
      - specialize (B2 k ltac:(lia)). lia.
      - destruct (Z.eq_dec k' k) as [|Hneq]; [assumption|].
        specialize (B1 (k + 1) ltac:(lia)). lia. }
    subst k'.
    assert (Hink : In k (probes tr'))
      by (replace k with (k + 1 - 1) by lia; apply B3; lia).
    assert (Hink1 : In (k + 1) (probes tr')) by (apply B4; lia).
    destruct (first_closest_least c t _ n Hfc) as [_ Hleast].
    destruct (nearest_of_pair c t k n Hmono Hk Hk1 Ht Hn
                (Hleast k Hink) (Hleast (k + 1) Hink1))
      as (H1 & H2 & H3 & H4).
    split.
    { rewrite (Hrun false), after_loop_chain. reflexivity. }
    split; [exact Hn|]. split; [exact H1|].
    split; [exact H2|]. split; [exact H3|]. split; [exact Hfc|].
    split; [intros _; split; assumption | exact H4].
Qed.

(** C6 as stated fails when the nearest block is the latest one: on a
    chain of one block stamped 10, with wanted timestamp 20, the search
    finds block 1, earlier than the target, and with [not_before] the
    fetch of block 2 raises; no block is returned. *)
Lemma C6_no_successor_counterexample :
  let c := chain_of_list [10] in
  monotone c
  /\ (exists w,
        get_closest_block chain_web3 1 (at_time 20) false (fresh c)
        = Some (Return (mkBlock 1 10), w))
  /\ timestamp (mkBlock 1 10) < int_timestamp (at_time 20)
  /\ (exists w,
        get_closest_block chain_web3 1 (at_time 20) true (fresh c)
        = Some (Raise (BlockNotFound 2), w))
  /\ ~ (exists b w,
          get_closest_block chain_web3 1 (at_time 20) true (fresh c)
          = Some (Return b, w)).
Proof.
  cbv zeta. split; [|split; [|split; [|split]]].
  - intros i j Hi Hij Hj. cbn in Hj. assert (i = 1 /\ j = 1) as [-> ->] by lia.
    lia.
  - eexists. vm_compute. reflexivity.
  - cbn. lia.
  - eexists. vm_compute. reflexivity.
  - intros (b & w & H). vm_compute in H. discriminate H.
Qed.

(** C6, amended: let [b] be the block the search comes to (what the
    function returns with [not_before] false).  With [not_before] true
    and [b] earlier than the wanted time, the function returns the
    result of fetching block [b.number + 1]: that block when [b] is not
    the latest block (when it is, the fetch raises [BlockNotFound]);
    otherwise it returns [b].  In the scenario of 100 blocks stamped
    [1000 * n] and wanted timestamp 50500 the search keeps block 50 and
    the result with [not_before] is block 51, as it would be had the
    search kept block 51. *)
Theorem C6_not_before_returns_successor_fetch :
  forall (c : Chain) (d : datetime) (fuel : nat) (tr : list Event),
    1 <= latest c ->
    uint64_stamps c ->
    datetime_in_range d ->
    (Z.to_nat (latest c) <= fuel)%nat ->
    (exists b tr1 tr2,
       get_closest_block chain_web3 fuel d false (mkWorld c tr)
       = Some (Return b, mkWorld c (tr ++ tr1))
       /\ 1 <= number b <= latest c
       /\ get_closest_block chain_web3 fuel d true (mkWorld c tr)
          = Some ((if timestamp b <? int_timestamp d then
                     if number b + 1 <=? latest c
                     then Return (block_of c (number b + 1))
                     else Raise (BlockNotFound (number b + 1))
                   else Return b),
                  mkWorld c (tr ++ tr2)))
    /\ (exists w,
          get_closest_block chain_web3 100 (at_time 50500) false (fresh linear_chain)
          = Some (Return (mkBlock 50 50000), w))
    /\ (exists w,
          get_closest_block chain_web3 100 (at_time 50500) true (fresh linear_chain)
          = Some (Return (mkBlock 51 51000), w))
    /\ (forall kept w, kept = 50 \/ kept = 51 ->
          exists tr',
            after_loop chain_web3 (at_time 50500) true
              (Some (block_of linear_chain kept)) (mkWorld linear_chain w)
            = Some (Return (mkBlock 51 51000), mkWorld linear_chain (w ++ tr'))).
Proof.
  intros c d fuel tr HN Hs Hd Hfuel.
  pose proof (data_ranges_within_sentinel c d Hs Hd) as Hw.
  split; [|split; [|split]].
  - destruct (search_outcome c d fuel tr HN Hw Hfuel)
      as (n & tr' & Hn & _ & _ & _ & _ & Hcases).
    destruct Hcases as [(Hexact & _ & Hrun) | (_ & _ & Hrun)].
    + exists (block_of c n), (search_prelude ++ tr'), (search_prelude ++ tr').
      rewrite !Hrun. cbn [block_of number timestamp].
      split; [reflexivity|]. split; [exact Hn|].
      destruct (stamp c n <? int_timestamp d) eqn:E; [lia | reflexivity].
    + exists (block_of c n), (search_prelude ++ tr').
      rewrite !Hrun, !after_loop_chain. cbn [block_of number timestamp andb].
      destruct (stamp c n <? int_timestamp d) eqn:E.
      * exists (search_prelude ++ tr' ++ [next_block_log; Ev_get_block (n + 1)]).
        split; [reflexivity|]. split; [exact Hn|].
        destruct (0 <=? n + 1) eqn:E0; [|lia]. cbn [andb].
        rewrite <- !app_assoc. reflexivity.
      * exists (search_prelude ++ tr').
        split; [reflexivity|]. split; [exact Hn|]. reflexivity.
  - eexists. vm_compute. reflexivity.
  - eexists. vm_compute. reflexivity.
  - intros kept w [-> | ->]; rewrite after_loop_chain.
    + exists [next_block_log; Ev_get_block 51]. reflexivity.
    + exists []. rewrite app_nil_r. reflexivity.
Qed.

(** A block returned from inside the loop has exactly the wanted
    timestamp, whatever node answered. *)
Lemma bisect_loop_returned_exact {S} (web3 : Web3 S) :
  forall fuel t lo hi cb cd w b w',
    bisect_loop web3 fuel t lo hi cb cd w = Some (Return (Returned b), w') ->
    timestamp b = t.
Proof.
  induction fuel as [|fuel IH]; intros t lo hi cb cd w b w' H;
    cbn [bisect_loop] in H; destruct (lo <=? hi); try discriminate H.
  unfold bind at 1, remote at 1 in H.
  destruct (eth_get_block web3 ((lo + hi) / 2) (node w)) as [[blk | e] s'];
    [|discriminate H].
  unfold bind at 1, logger at 1, emit at 1 in H. cbn [node trace] in H.
  destruct (Z.abs (timestamp blk - t) <? cd);
    destruct (timestamp blk >? t) eqn:Egt;
    try (apply IH in H; exact H);
    destruct (timestamp blk <? t) eqn:Elt;
    try (apply IH in H; exact H);
    inversion H; subst; lia.
Qed.

(** With any node: when the search comes to a block earlier than the
    wanted time, [not_before] makes one more fetch, of the next block
    number, and what that fetch gives is the result. *)
Lemma not_before_fetches_successor {S} (web3 : Web3 S) fuel d w cb w1 :
  get_closest_block web3 fuel d false w = Some (Return cb, w1) ->
  timestamp cb < int_timestamp d ->
  get_closest_block web3 fuel d true w
  = let (r, s') := eth_get_block web3 (number cb + 1) (node w1) in
    Some (r, mkWorld s' (trace w1 ++ [next_block_log; Ev_get_block (number cb + 1)])).
Proof.
  intros H Hlt.
  unfold get_closest_block, after_loop in *.
  unfold bind, logger, emit, remote, ret, raise, next_block_log in *.
  cbn [node trace] in *.
  destruct (eth_block_number web3 (node w)) as [[n | e] s]; [|discriminate H].
  cbn [node trace] in *.
  destruct (bisect_loop web3 fuel (int_timestamp d) 1 n None initial_closest_diff _)
    as [[[[b | [b|]] | e] w2] |] eqn:Hloop; try discriminate H.
  - inversion H; subst.
    apply bisect_loop_returned_exact in Hloop. lia.
  - cbn [andb] in *. inversion H; subst.
    destruct (timestamp cb <? int_timestamp d) eqn:E; [|lia].
    destruct (eth_get_block web3 (number cb + 1) (node w1)) as [r s'].
    rewrite <- app_assoc. reflexivity.
Qed.

(** C10: whenever the [not_before] branch is taken, the function
    fetches block [best.number + 1] and returns what the fetch gives,
    unchecked.  When the best block is the latest block the fetch is
    for [latest_block_number + 1], outside the searched range, and
    raises: a chain stamped 10, 20, 30 with wanted timestamp 35.  When
    timestamps repeat the block returned can still be earlier than the
    wanted time: a chain stamped 1, 1, 1, 10 with wanted timestamp 2. *)
Theorem C10_not_before_fetch_is_unchecked :
  (forall (S : Type) (web3 : Web3 S) (fuel : nat) (d : datetime)
          (w w1 : World S) (cb : BlockData),
      get_closest_block web3 fuel d false w = Some (Return cb, w1) ->
      timestamp cb < int_timestamp d ->
      get_closest_block web3 fuel d true w
      = let (r, s') := eth_get_block web3 (number cb + 1) (node w1) in
        Some (r, mkWorld s' (trace w1
                               ++ [next_block_log; Ev_get_block (number cb + 1)])))
  /\ (forall c : Chain,
        0 <= latest c ->
        eth_get_block chain_web3 (latest c + 1) c
        = (Raise (BlockNotFound (latest c + 1)), c))
  /\ (let c := chain_of_list [10; 20; 30] in
      exists w1 w2,
        get_closest_block chain_web3 3 (at_time 35) false (fresh c)
        = Some (Return (mkBlock 3 30), w1)
        /\ number (mkBlock 3 30) = latest c
        /\ get_closest_block chain_web3 3 (at_time 35) true (fresh c)
           = Some (Raise (BlockNotFound 4), w2)
        /\ probes (trace w2) = [2; 3; 4])
  /\ (let c := chain_of_list [1; 1; 1; 10] in
      exists w,
        get_closest_block chain_web3 4 (at_time 2) true (fresh c)
        = Some (Return (mkBlock 3 1), w)
        /\ timestamp (mkBlock 3 1) < int_timestamp (at_time 2)).
Proof.
  split; [|split; [|split]].
  - intros S web3 fuel d w w1 cb. apply not_before_fetches_successor.
  - intros c HN. cbn [chain_web3 eth_get_block].
    destruct ((0 <=? latest c + 1) && (latest c + 1 <=? latest c)) eqn:E;
      [lia | reflexivity].
  - cbv zeta. eexists _, _.
    split; [vm_compute; reflexivity|]. split; [reflexivity|].
    split; [vm_compute; reflexivity|]. reflexivity.
  - cbv zeta. eexists. split; [vm_compute; reflexivity|]. cbn. lia.
Qed.

(** ** The Uint256 column type *)

(** C9 as stated fails: a value outside the range is not brought into
    it; the call raises and nothing is returned. *)
Lemma C9_no_clamping_counterexample :
  - 1 < 0
  /\ process_result_value (PyInt (- 1))
     = Raise (TypeError "exceptions must derive from BaseException")
  /\ ~ (exists z, process_result_value (PyInt (- 1)) = Return (PyInt z)
                  /\ 0 <= z <= MAX_UINT256)
  /\ ~ (exists z, process_bind_param (PyDecimal (DecFinite false (2 ^ 256) 0))
                  = Return (PyInt z)
                  /\ 0 <= z <= MAX_UINT256).
Proof.
  split; [lia|]. split; [reflexivity|].
  split; intros (z & H & _); vm_compute in H; discriminate H.
Qed.

Lemma coerce_and_validate_returns value r :
  _coerce_and_validate_uint256 value = Return r ->
  exists z, r = PyInt z /\ int value = Return z /\ 0 <= z <= MAX_UINT256.
Proof.
  unfold _coerce_and_validate_uint256.
  destruct (int value) as [z | e]; [|discriminate].
  destruct ((z <? 0) || (z >? MAX_UINT256)) eqn:E; [discriminate|].
  intros H. inversion H; subst. exists z.
  apply orb_false_iff in E. destruct E as [E1 E2].
  repeat split; lia.
Qed.

Lemma coerce_and_validate_rejects value z :
  int value = Return z ->
  z < 0 \/ MAX_UINT256 < z ->
  exists e, _coerce_and_validate_uint256 value = Raise e.
Proof.
  intros Hint Hout. unfold _coerce_and_validate_uint256. rewrite Hint.
  destruct ((z <? 0) || (z >? MAX_UINT256)) eqn:E.
  - eexists. reflexivity.
  - apply orb_false_iff in E. lia.
Qed.

(** C9, amended: a value whose integer is outside [[0, 2^256 - 1]] is
    rejected, not clamped: [process_result_value], and
    [process_bind_param] when the value is a Decimal, raise instead of
    returning.  So whatever these two return for a number lies within
    the range, and it is the integer of the input, unchanged. *)
Theorem C9_out_of_range_is_rejected :
  forall (value : PyValue) (z : Z),
    int value = Return z ->
    z < 0 \/ MAX_UINT256 < z ->
    (exists e, process_result_value value = Raise e)
    /\ (forall dd, value = PyDecimal dd ->
                   exists e, process_bind_param value = Raise e)
    /\ (forall v r, process_result_value v = Return r ->
                    r = PyNone
                    \/ exists z', r = PyInt z' /\ int v = Return z'
                                  /\ 0 <= z' <= MAX_UINT256)
    /\ (forall dd r, process_bind_param (PyDecimal dd) = Return r ->
                     exists z', r = PyInt z' /\ int (PyDecimal dd) = Return z'
                                /\ 0 <= z' <= MAX_UINT256).
Proof.
  intros value z Hint Hout.
  split; [|split; [|split]].
  - destruct value as [| z0 | dd]; [discriminate Hint | |];
      apply (coerce_and_validate_rejects _ z Hint Hout).
  - intros dd ->. apply (coerce_and_validate_rejects _ z Hint Hout).
  - intros v r H. destruct v as [| z0 | dd].
    + left. inversion H. reflexivity.
    + right. apply coerce_and_validate_returns, H.
    + right. apply coerce_and_validate_returns, H.
  - intros dd r H. apply coerce_and_validate_returns, H.
Qed.

(** ** The properties at concrete inputs *)

Lemma map_seq_from (A : Type) (f : nat -> A) m n :
  map f (seq n m) = map (fun i => f (n + i)%nat) (seq 0 m).
Proof.
  revert n. induction m as [|m IH]; intros n; [reflexivity|].
  cbn [seq map]. rewrite Nat.add_0_r. f_equal.
  rewrite IH, <- seq_shift, map_map.
  apply map_ext. intros i. f_equal. lia.
Qed.

Lemma Zrange_app a b c :
  a <= b -> b < c -> Zrange a c = Zrange a b ++ Zrange (b + 1) c.
Proof.
  intros Hab Hbc. unfold Zrange.
  replace (Z.to_nat (c - a + 1))
    with (Z.to_nat (b - a + 1) + Z.to_nat (c - (b + 1) + 1))%nat by lia.
  rewrite seq_app, map_app. f_equal.
  rewrite map_seq_from. apply map_ext. intros i. lia.
Qed.

Lemma ledger_reliable : reliable ledger_getLogs ledger_logs.
Proof. intros a b flt s. reflexivity. Qed.

Lemma ledger_concatenative : concatenative ledger_logs.
Proof.
  intros a b c flt Hab Hbc. unfold ledger_logs.
  rewrite (Zrange_app a b c Hab Hbc). apply filter_app.
Qed.

Lemma broken_always_fails : always_fails broken.
Proof. intros n. eexists. reflexivity. Qed.

Lemma broken_getLogs_always_fails a b flt : always_fails (broken_getLogs a b flt).
Proof. intros n. eexists. reflexivity. Qed.

Lemma linear_chain_monotone : monotone linear_chain.
Proof.
  intros i j Hi Hij Hj. unfold linear_chain in *. cbn [stamp latest] in *. lia.
Qed.

Lemma linear_chain_uint64 : uint64_stamps linear_chain.
Proof.
  intros n Hn. unfold linear_chain in *. cbn [stamp latest] in *.
  assert (100000 < 2 ^ 64) by (vm_compute; reflexivity). lia.
Qed.

Lemma at_time_in_range t : - 2 ^ 63 <= t < 2 ^ 63 -> datetime_in_range (at_time t).
Proof. intros H. exact H. Qed.

(** C1 on a ledger of 26 blocks fetched in batches of 10, keeping the
    even block numbers. *)
Lemma C1_get_events_witness :
  reliable ledger_getLogs ledger_logs
  /\ concatenative ledger_logs
  /\ 0 <= 25 /\ 1 <= 10
  /\ exists evs tr rs,
       get_events ledger_getLogs 26 0 25 10 Z.even (fresh tt)
       = Some (Return evs, mkWorld (node (fresh tt)) (trace (fresh tt) ++ tr))
       /\ fst (ledger_getLogs 0 25 Z.even (node (fresh tt))) = Return evs
       /\ getLogs_ranges tr = rs
       /\ effects tr = map getLogs_event rs
       /\ partitions 0 25 rs
       /\ Forall (fun r => 1 <= range_width r <= 10 + 1) rs
       /\ (forall n, List.length (filter (covers n) rs)
                     = if (0 <=? n) && (n <=? 25) then 1%nat else 0%nat).
Proof.
  split; [exact ledger_reliable|]. split; [exact ledger_concatenative|].
  split; [lia|]. split; [lia|].
  apply (C1_get_events_partitions_and_concatenates
           unit Z (Z -> bool) ledger_getLogs ledger_logs 0 25 10 Z.even 26 (fresh tt)).
  - exact ledger_reliable.
  - exact ledger_concatenative.
  - lia.
  - lia.
  - vm_compute. lia.
Defined.

(** C2 on the linear chain, wanted timestamp 50400 between blocks 50
    and 51. *)
Lemma C2_closest_block_witness :
  monotone linear_chain
  /\ uint64_stamps linear_chain
  /\ datetime_in_range (at_time 50400)
  /\ stamp linear_chain 50 <= int_timestamp (at_time 50400) < stamp linear_chain (50 + 1)
  /\ exists n tr',
       get_closest_block chain_web3 100 (at_time 50400) false (mkWorld linear_chain [])
       = Some (Return (block_of linear_chain n), mkWorld linear_chain ([] ++ tr'))
       /\ 1 <= n <= latest linear_chain
       /\ dist linear_chain 50400 n
          = Z.min (dist linear_chain 50400 50) (dist linear_chain 50400 (50 + 1))
       /\ (dist linear_chain 50400 50 < dist linear_chain 50400 (50 + 1) ->
           stamp linear_chain n = stamp linear_chain 50)
       /\ (dist linear_chain 50400 (50 + 1) < dist linear_chain 50400 50 ->
           stamp linear_chain n = stamp linear_chain (50 + 1))
       /\ first_closest linear_chain 50400 (probes tr') n
       /\ (stamp linear_chain 50 < 50400 ->
           In 50 (probes tr') /\ In (50 + 1) (probes tr'))
       /\ ((forall i j, 1 <= i -> i < j -> j <= latest linear_chain ->
                        stamp linear_chain i < stamp linear_chain j) ->
           n = 50 \/ n = 50 + 1).
Proof.
  split; [exact linear_chain_monotone|]. split; [exact linear_chain_uint64|].
  assert (Hd : datetime_in_range (at_time 50400))
    by (apply at_time_in_range; split; vm_compute; congruence).
  split; [exact Hd|].
  assert (Ht : stamp linear_chain 50 <= int_timestamp (at_time 50400)
               < stamp linear_chain (50 + 1))
    by (split; vm_compute; congruence).
  split; [exact Ht|].
  apply (C2_closest_block_is_nearest_of_pair linear_chain (at_time 50400) 100 [] 50).
  - exact linear_chain_monotone.
  - exact linear_chain_uint64.
  - exact Hd.
  - lia.
  - vm_compute. congruence.
  - exact Ht.
  - vm_compute. lia.
Defined.

(** C4 on an operation that fails on every call, budget 2. *)
Lemma C4_exhausted_retries_witness :
  always_fails broken
  /\ always_fails (broken_getLogs 100 200 tt)
  /\ (exists e tr,
        retryable broken 11 2 (fresh 0%nat)
        = Some (Raise e,
                mkWorld (state_after broken (Datatypes.S (Z.to_nat 2))
                                     (node (fresh 0%nat)))
                        (trace (fresh 0%nat) ++ tr))
        /\ fst (broken (state_after broken (Z.to_nat 2) (node (fresh 0%nat))))
           = Raise e
        /\ Z.of_nat (List.length (calls tr)) = 2 + 1
        /\ calls tr = repeat Ev_call (Datatypes.S (Z.to_nat 2)))
  /\ (exists e tr,
        get_event_batch_with_retries broken_getLogs 11 100 200 tt 2 (fresh 0%nat)
        = Some (Raise e,
                mkWorld (state_after (broken_getLogs 100 200 tt)
                                     (Datatypes.S (Z.to_nat 2)) (node (fresh 0%nat)))
                        (trace (fresh 0%nat) ++ tr))
        /\ fst (broken_getLogs 100 200 tt
                  (state_after (broken_getLogs 100 200 tt) (Z.to_nat 2)
                               (node (fresh 0%nat))))
           = Raise e
        /\ Z.of_nat (List.length (calls tr)) = 2 + 1
        /\ calls tr = repeat (Ev_getLogs 100 200) (Datatypes.S (Z.to_nat 2))).
Proof.
  split; [exact broken_always_fails|].
  split; [exact (broken_getLogs_always_fails 100 200 tt)|].
  apply (C4_exhausted_retries_reraise_last_error
           nat Z nat Z unit broken broken_getLogs 100 200 tt 2 11
           (fresh 0%nat) (fresh 0%nat)).
  - exact broken_always_fails.
  - exact (broken_getLogs_always_fails 100 200 tt).
  - lia.
  - vm_compute. lia.
Defined.

(** C5 on the range from block 20 down to block 10. *)
Lemma C5_get_events_rejects_witness :
  10 < 20
  /\ get_events ledger_getLogs 5 20 10 1000 Z.even (fresh tt)
     = Some (Raise (ValueError "to_block 10 is smaller than from_block 20"),
             fresh tt).
Proof.
  split; [lia|].
  apply (C5_get_events_rejects_inverted_range
           unit Z (Z -> bool) ledger_getLogs 20 10 1000 Z.even 5 (fresh tt)).
  lia.
Defined.

(** C6 on the linear chain, wanted timestamp 50500. *)
Lemma C6_not_before_witness :
  exists b tr1 tr2,
    get_closest_block chain_web3 100 (at_time 50500) false (mkWorld linear_chain [])
    = Some (Return b, mkWorld linear_chain ([] ++ tr1))
    /\ 1 <= number b <= latest linear_chain
    /\ get_closest_block chain_web3 100 (at_time 50500) true (mkWorld linear_chain [])
       = Some ((if timestamp b <? int_timestamp (at_time 50500) then
                  if number b + 1 <=? latest linear_chain
                  then Return (block_of linear_chain (number b + 1))
                  else Raise (BlockNotFound (number b + 1))
                else Return b),
               mkWorld linear_chain ([] ++ tr2)).
Proof.
  apply (C6_not_before_returns_successor_fetch linear_chain (at_time 50500) 100 []).
  - vm_compute. congruence.
  - exact linear_chain_uint64.
  - apply at_time_in_range. split; vm_compute; congruence.
  - vm_compute. lia.
Defined.

(** C7 on the linear chain, wanted timestamp that of block 37. *)
Lemma C7_exact_match_witness :
  monotone linear_chain
  /\ stamp linear_chain 37 = int_timestamp (at_time 37000)
  /\ exists n tr' pre,
       (forall not_before,
          get_closest_block chain_web3 100 (at_time 37000) not_before
            (mkWorld linear_chain [])
          = Some (Return (block_of linear_chain n),
                  mkWorld linear_chain ([] ++ tr')))
       /\ 1 <= n <= latest linear_chain
       /\ timestamp (block_of linear_chain n) = int_timestamp (at_time 37000)
       /\ probes tr' = pre ++ [n]
       /\ (forall q, In q pre -> stamp linear_chain q <> int_timestamp (at_time 37000))
       /\ effects tr' = Ev_block_number :: map Ev_get_block (pre ++ [n]).
Proof.
  split; [exact linear_chain_monotone|]. split; [reflexivity|].
  apply (C7_exact_match_short_circuits linear_chain (at_time 37000) 100 [] 37).
  - exact linear_chain_monotone.
  - split; vm_compute; congruence.
  - reflexivity.
  - vm_compute. lia.
Defined.

(** C8 on the linear chain, with [not_before]. *)
Lemma C8_lookup_error_witness :
  1 <= latest linear_chain
  /\ uint64_stamps linear_chain
  /\ datetime_in_range (at_time 123456)
  /\ exists out tr',
       get_closest_block chain_web3 100 (at_time 123456) true (mkWorld linear_chain [])
       = Some (out, mkWorld linear_chain ([] ++ tr'))
       /\ (forall msg, out <> Raise (LookupError msg))
       /\ exists rest, probes tr' = (1 + latest linear_chain) / 2 :: rest.
Proof.
  assert (HN : 1 <= latest linear_chain) by (vm_compute; congruence).
  assert (Hd : datetime_in_range (at_time 123456))
    by (apply at_time_in_range; split; vm_compute; congruence).
  split; [exact HN|]. split; [exact linear_chain_uint64|]. split; [exact Hd|].
  apply (C8_lookup_error_unreachable linear_chain (at_time 123456) true 100 []
           HN linear_chain_uint64 Hd).
  vm_compute. lia.
Defined.

(** C9 on the integer one past the largest uint256, as an int and as a
    Decimal. *)
Lemma C9_out_of_range_witness :
  (exists e, process_result_value (PyInt (2 ^ 256)) = Raise e)
  /\ (exists e, process_bind_param (PyDecimal (DecFinite false (2 ^ 256) 0)) = Raise e).
Proof.
  assert (Hout : 2 ^ 256 < 0 \/ MAX_UINT256 < 2 ^ 256)
    by (right; vm_compute; reflexivity).
  split.
  - exact (proj1 (C9_out_of_range_is_rejected (PyInt (2 ^ 256)) (2 ^ 256)
                    eq_refl Hout)).
  - assert (Hint : int (PyDecimal (DecFinite false (2 ^ 256) 0)) = Return (2 ^ 256))
      by (vm_compute; reflexivity).
    exact (proj1 (proj2 (C9_out_of_range_is_rejected
                           (PyDecimal (DecFinite false (2 ^ 256) 0)) (2 ^ 256)
                           Hint Hout))
                 (DecFinite false (2 ^ 256) 0) eq_refl).
Defined.

(** C10 on a chain stamped 10, 20, 30 with wanted timestamp 35. *)
Lemma C10_not_before_fetch_witness :
  exists w,
    get_closest_block chain_web3 3 (at_time 35) true (fresh (chain_of_list [10; 20; 30]))
    = Some (Raise (BlockNotFound 4), w).
Proof.
  eexists.
  rewrite (proj1 C10_not_before_fetch_is_unchecked Chain chain_web3 3%nat (at_time 35)
             (fresh (chain_of_list [10; 20; 30]))
             (mkWorld (chain_of_list [10; 20; 30])
                [Ev_log DEBUG "Wanted timestamp: %s"; Ev_block_number;
                 Ev_log DEBUG "Bisecting between %s and %s";
                 Ev_get_block 2; probe_log; Ev_get_block 3; probe_log])
             (mkBlock 3 30)).
  - vm_compute. reflexivity.
  - vm_compute. reflexivity.
  - vm_compute. reflexivity.
Defined.

(** * Further properties *)

(** ** Retrying, for any operation *)

Lemma Zsum_app l1 l2 : Zsum (l1 ++ l2) = Zsum l1 + Zsum l2.
Proof.
  unfold Zsum. induction l1 as [|x l1 IH]; cbn [fold_right app]; lia.
Qed.

Lemma Zsum_bounds lo hi l :
  Forall (fun x => lo <= x <= hi) l ->
  lo * Z.of_nat (List.length l) <= Zsum l <= hi * Z.of_nat (List.length l).
Proof.
  unfold Zsum.
  induction 1 as [|x l Hx Hl IH]; cbn [fold_right List.length]; lia.
Qed.

Lemma backoff_sleep_bounds a : 0 <= a -> 1 <= Z.min (2 ^ a) 256 <= 256.
Proof.
  intros Ha. assert (0 < 2 ^ a) by (apply Z.pow_pos_nonneg; lia). lia.
Qed.

Lemma schedule_bounds a k :
  0 <= a ->
  Forall (fun x => 1 <= x <= 256)
         (map (fun i => Z.min (2 ^ (a + Z.of_nat i)) 256) (seq 0 k)).
Proof.
  intros Ha. apply Forall_forall. intros x Hx.
  apply in_map_iff in Hx. destruct Hx as (i & <- & _).
  apply backoff_sleep_bounds. lia.
Qed.

Section RetryTotal.
Context {S T : Type}.
Variable func : S -> Outcome T * S.

(** The loop of the decorator, whatever [func] does: it stops at the
    first call that returns or at the call that finds the budget used
    up, whichever comes first, and the outcome of that call is the
    outcome of the loop. *)
Lemma wrapped_loop_total :
  forall n fuel max_attempts attempt s tr,
    Z.to_nat (max_attempts - attempt) = n ->
    (n < fuel)%nat ->
    exists k tr',
      (k <= n)%nat
      /\ wrapped_loop func fuel max_attempts attempt (mkWorld s tr)
         = Some (fst (func (state_after func k s)),
                 mkWorld (state_after func (Datatypes.S k) s) (tr ++ tr'))
      /\ (forall i, (i < k)%nat ->
                    exists e, fst (func (state_after func i s)) = Raise e)
      /\ ((exists v, fst (func (state_after func k s)) = Return v) \/ k = n)
      /\ effects tr' = backoff_trace Ev_call k attempt.
Proof.
  induction n as [|n IH]; intros fuel m attempt s tr Hn Hfuel;
    (destruct fuel as [|fuel]; [lia|]);
    cbn [wrapped_loop]; unfold try_except at 1, remote at 1; cbn [node trace];
    destruct (func s) as [[v | e] s'] eqn:Hs.
  - exists 0%nat, [Ev_call]. cbn [state_after]. rewrite Hs. cbn [fst snd].
    split; [lia|]. split; [reflexivity|]. split; [intros i Hi; lia|].
    split; [left; exists v; reflexivity | reflexivity].
  - destruct (attempt >=? m) eqn:E; [|lia].
    exists 0%nat, [Ev_call; Ev_log WARNING "max attempts (%s) exchusted for error: %s"].
    unfold bind, logger, raise, emit. cbn [node trace state_after].
    rewrite Hs. cbn [fst snd]. rewrite <- app_assoc.
    split; [lia|]. split; [reflexivity|]. split; [intros i Hi; lia|].
    split; [right; reflexivity | reflexivity].
  - exists 0%nat, [Ev_call]. cbn [state_after]. rewrite Hs. cbn [fst snd].
    split; [lia|]. split; [reflexivity|]. split; [intros i Hi; lia|].
    split; [left; exists v; reflexivity | reflexivity].
  - destruct (attempt >=? m) eqn:E; [lia|].
    unfold bind, logger, exponential_sleep, sleep, emit, default_max_sleep_time.
    cbn [node trace].
    destruct (IH fuel m (attempt + 1) s'
                (((tr ++ [Ev_call])
                    ++ [Ev_log WARNING "Retryable error (attempt: %s/%s): %s"])
                   ++ [Ev_sleep (Z.min (2 ^ attempt) 256)]))
      as (k & tr' & Hk & Hrun & Hfail & Hlast & Heff); [lia | lia |].
    exists (Datatypes.S k),
           ([Ev_call; Ev_log WARNING "Retryable error (attempt: %s/%s): %s";
             Ev_sleep (Z.min (2 ^ attempt) 256)] ++ tr').
    split; [lia|]. split; [|split; [|split]].
    + rewrite Hrun. cbn [state_after]. rewrite Hs. cbn [snd].
      repeat rewrite <- app_assoc. reflexivity.
    + intros [|i] Hi.
      * exists e. cbn [state_after]. rewrite Hs. reflexivity.
      * cbn [state_after]. rewrite Hs. cbn [snd]. apply Hfail. lia.
    + cbn [state_after]. rewrite Hs. cbn [snd].
      destruct Hlast as [Hv | ->]; [left; exact Hv | right; reflexivity].
    + rewrite effects_app, Heff. reflexivity.
Qed.
End RetryTotal.

Section BatchTotal.
Context {S Rec Filter : Type}.
Variable getLogs : Z -> Z -> Filter -> S -> Outcome (list Rec) * S.

(** The same for the fetcher's own loop. *)
Lemma batch_loop_total :
  forall n fuel a b flt initial_retries retries s tr,
    Z.to_nat retries = n ->
    (n < fuel)%nat ->
    let func := getLogs a b flt in
    exists k tr',
      (k <= n)%nat
      /\ batch_loop getLogs fuel a b flt initial_retries retries (mkWorld s tr)
         = Some (fst (func (state_after func k s)),
                 mkWorld (state_after func (Datatypes.S k) s) (tr ++ tr'))
      /\ (forall i, (i < k)%nat ->
                    exists e, fst (func (state_after func i s)) = Raise e)
      /\ ((exists v, fst (func (state_after func k s)) = Return v) \/ k = n)
      /\ effects tr'
         = backoff_trace (Ev_getLogs a b) k (initial_retries - retries + 1).
Proof.
  induction n as [|n IH]; intros fuel a b flt ini retries s tr Hn Hfuel func;
    (destruct fuel as [|fuel]; [lia|]);
    cbn [batch_loop]; unfold try_except at 1, remote at 1; cbn [node trace];
    fold func; destruct (func s) as [[v | e] s'] eqn:Hs.
  - exists 0%nat, [Ev_getLogs a b]. cbn [state_after]. rewrite Hs. cbn [fst snd].
    split; [lia|]. split; [reflexivity|]. split; [intros i Hi; lia|].
    split; [left; exists v; reflexivity | reflexivity].
  - destruct (retries <=? 0) eqn:E; [|lia].
    exists 0%nat, [Ev_getLogs a b].
    unfold raise. cbn [state_after]. rewrite Hs. cbn [fst snd].
    split; [lia|]. split; [reflexivity|]. split; [intros i Hi; lia|].
    split; [right; reflexivity | reflexivity].
  - exists 0%nat, [Ev_getLogs a b]. cbn [state_after]. rewrite Hs. cbn [fst snd].
    split; [lia|]. split; [reflexivity|]. split; [intros i Hi; lia|].
    split; [left; exists v; reflexivity | reflexivity].
  - destruct (retries <=? 0) eqn:E; [lia|].
    unfold bind, logger, exponential_sleep, sleep, emit, default_max_sleep_time.
    cbn [node trace].
    destruct (IH fuel a b flt ini (retries - 1) s'
                (((tr ++ [Ev_getLogs a b])
                    ++ [Ev_log WARNING "error in get_all_entries: %s, retrying (%s)"])
                   ++ [Ev_sleep (Z.min (2 ^ (ini - (retries - 1))) 256)]))
      as (k & tr' & Hk & Hrun & Hfail & Hlast & Heff); [lia | lia |].
    fold func in Hrun, Hfail, Hlast.
    exists (Datatypes.S k),
           ([Ev_getLogs a b;
             Ev_log WARNING "error in get_all_entries: %s, retrying (%s)";
             Ev_sleep (Z.min (2 ^ (ini - (retries - 1))) 256)] ++ tr').
    split; [lia|]. split; [|split; [|split]].
    + rewrite Hrun. cbn [state_after]. rewrite Hs. cbn [snd].
      repeat rewrite <- app_assoc. reflexivity.
    + intros [|i] Hi.
      * exists e. cbn [state_after]. rewrite Hs. reflexivity.
      * cbn [state_after]. rewrite Hs. cbn [snd]. apply Hfail. lia.
    + cbn [state_after]. rewrite Hs. cbn [snd].
      destruct Hlast as [Hv | ->]; [left; exact Hv | right; reflexivity].
    + rewrite effects_app, Heff. cbn [effects filter is_log negb app backoff_trace].
      replace (ini - (retries - 1) + 1) with (ini - retries + 1 + 1) by lia.
      replace (ini - (retries - 1)) with (ini - retries + 1) by lia.
      reflexivity.
Qed.
End BatchTotal.

(** X1: whatever the decorated function does, a call through
    [retryable] ends: the function is called until it returns or until
    it has raised [max_attempts + 1] times (once, when [max_attempts]
    is negative), the outcome of the last call is the outcome of the
    whole call, every earlier call raised, the sleeps in between are 1,
    2, 4, ... seconds capped at 256, and they add up to at most
    256 seconds per retry allowed. *)
Theorem X1_retryable_stops_at_first_success_or_budget :
  forall (S T : Type) (func : S -> Outcome T * S)
         (max_attempts : Z) (fuel : nat) (w : World S),
    (Z.to_nat max_attempts < fuel)%nat ->
    exists k tr,
      Z.of_nat k <= Z.max 0 max_attempts
      /\ retryable func fuel max_attempts w
         = Some (fst (func (state_after func k (node w))),
                 mkWorld (state_after func (Datatypes.S k) (node w)) (trace w ++ tr))
      /\ (forall i, (i < k)%nat ->
                    exists e, fst (func (state_after func i (node w))) = Raise e)
      /\ ((exists v, fst (func (state_after func k (node w))) = Return v)
          \/ Z.of_nat k = Z.max 0 max_attempts)
      /\ calls tr = repeat Ev_call (Datatypes.S k)
      /\ sleeps tr = spec_sleeps k
      /\ Zsum (sleeps tr) <= 256 * Z.max 0 max_attempts.
Proof.
  intros S T func m fuel [s tr0] Hfuel. cbn [node trace].
  destruct (wrapped_loop_total func (Z.to_nat m) fuel m 0 s tr0)
    as (k & tr & Hk & Hrun & Hfail & Hlast & Heff);
    [f_equal; lia | exact Hfuel |].
  assert (Hsl : sleeps tr = spec_sleeps k).
  { rewrite <- sleeps_effects, Heff, sleeps_backoff_trace by reflexivity.
    reflexivity. }
  exists k, tr.
  split; [lia|]. split; [exact Hrun|]. split; [exact Hfail|].
  split; [destruct Hlast as [Hv | ->]; [left; exact Hv | right; lia]|].
  split; [rewrite <- calls_effects, Heff; apply calls_backoff_trace; reflexivity|].
  split; [exact Hsl|].
  rewrite Hsl. unfold spec_sleeps.
  pose proof (Zsum_bounds 1 256 _ (schedule_bounds 0 k ltac:(lia))) as Hb.
  rewrite length_map, length_seq in Hb. cbn [Z.add] in Hb. lia.
Qed.

(** X2: the same for the fetcher's [get_event_batch_with_retries],
    whatever [getLogs] does: it is called until it returns or until it
    has raised [retries + 1] times (once, when [retries] is negative),
    the outcome of the last call is the outcome of the whole call, and
    the sleeps in between are 2, 4, 8, ... seconds capped at 256. *)
Theorem X2_get_event_batch_stops_at_first_success_or_budget :
  forall (S Rec Filter : Type)
         (getLogs : Z -> Z -> Filter -> S -> Outcome (list Rec) * S)
         (a b : Z) (flt : Filter) (retries : Z) (fuel : nat) (w : World S),
    (Z.to_nat retries < fuel)%nat ->
    let func := getLogs a b flt in
    exists k tr,
      Z.of_nat k <= Z.max 0 retries
      /\ get_event_batch_with_retries getLogs fuel a b flt retries w
         = Some (fst (func (state_after func k (node w))),
                 mkWorld (state_after func (Datatypes.S k) (node w)) (trace w ++ tr))
      /\ (forall i, (i < k)%nat ->
                    exists e, fst (func (state_after func i (node w))) = Raise e)
      /\ ((exists v, fst (func (state_after func k (node w))) = Return v)
          \/ Z.of_nat k = Z.max 0 retries)
      /\ calls tr = repeat (Ev_getLogs a b) (Datatypes.S k)
      /\ sleeps tr = fetcher_sleeps k
      /\ Zsum (sleeps tr) <= 256 * Z.max 0 retries.
Proof.
  intros S Rec Filter getLogs a b flt retries fuel [s tr0] Hfuel func.
  cbn [node trace]. unfold get_event_batch_with_retries.
  destruct (batch_loop_total getLogs (Z.to_nat retries) fuel a b flt retries
              retries s tr0 eq_refl Hfuel)
    as (k & tr & Hk & Hrun & Hfail & Hlast & Heff).
  fold func in Hrun, Hfail, Hlast.
  replace (retries - retries + 1) with 1 in Heff by lia.
  assert (Hsl : sleeps tr = fetcher_sleeps k).
  { rewrite <- sleeps_effects, Heff, sleeps_backoff_trace by reflexivity.
    apply map_ext. intros i. do 2 f_equal. lia. }
  exists k, tr.
  split; [lia|]. split; [exact Hrun|]. split; [exact Hfail|].
  split; [destruct Hlast as [Hv | ->]; [left; exact Hv | right; lia]|].
  split; [rewrite <- calls_effects, Heff; apply calls_backoff_trace; reflexivity|].
  split; [exact Hsl|].
  rewrite Hsl. unfold fetcher_sleeps.
  assert (Hall : Forall (fun x => 1 <= x <= 256)
                   (map (fun i => Z.min (2 ^ (Z.of_nat i + 1)) 256) (seq 0 k))).
  { apply Forall_forall. intros x Hx. apply in_map_iff in Hx.
    destruct Hx as (i & <- & _). apply backoff_sleep_bounds. lia. }
  pose proof (Zsum_bounds 1 256 _ Hall) as Hb.
  rewrite length_map, length_seq in Hb. lia.
Qed.

(** X1 on an operation that fails three times, budget 10. *)
Lemma X1_retryable_witness :
  exists k tr,
    Z.of_nat k <= Z.max 0 10
    /\ retryable (flaky 3 7) 11 10 (fresh 0%nat)
       = Some (fst (flaky 3 7 (state_after (flaky 3 7) k (node (fresh 0%nat)))),
               mkWorld (state_after (flaky 3 7) (Datatypes.S k) (node (fresh 0%nat)))
                       (trace (fresh 0%nat) ++ tr))
    /\ (forall i, (i < k)%nat ->
          exists e, fst (flaky 3 7 (state_after (flaky 3 7) i (node (fresh 0%nat))))
                    = Raise e)
    /\ ((exists v, fst (flaky 3 7 (state_after (flaky 3 7) k (node (fresh 0%nat))))
                   = Return v)
        \/ Z.of_nat k = Z.max 0 10)
    /\ calls tr = repeat Ev_call (Datatypes.S k)
    /\ sleeps tr = spec_sleeps k
    /\ Zsum (sleeps tr) <= 256 * Z.max 0 10.
Proof.
  apply (X1_retryable_stops_at_first_success_or_budget
           nat Z (flaky 3 7) 10 11 (fresh 0%nat)).
  vm_compute. lia.
Defined.

(** X2 on a node whose first three answers are errors. *)
Lemma X2_get_event_batch_witness :
  exists k tr,
    Z.of_nat k <= Z.max 0 10
    /\ get_event_batch_with_retries (flaky_getLogs 3) 11 100 200 tt 10 (fresh 0%nat)
       = Some (fst (flaky_getLogs 3 100 200 tt
                      (state_after (flaky_getLogs 3 100 200 tt) k (node (fresh 0%nat)))),
               mkWorld (state_after (flaky_getLogs 3 100 200 tt) (Datatypes.S k)
                                    (node (fresh 0%nat)))
                       (trace (fresh 0%nat) ++ tr))
    /\ (forall i, (i < k)%nat ->
          exists e, fst (flaky_getLogs 3 100 200 tt
                           (state_after (flaky_getLogs 3 100 200 tt) i
                                        (node (fresh 0%nat))))
                    = Raise e)
    /\ ((exists v, fst (flaky_getLogs 3 100 200 tt
                          (state_after (flaky_getLogs 3 100 200 tt) k
                                       (node (fresh 0%nat))))
                   = Return v)
        \/ Z.of_nat k = Z.max 0 10)
    /\ calls tr = repeat (Ev_getLogs 100 200) (Datatypes.S k)
    /\ sleeps tr = fetcher_sleeps k
    /\ Zsum (sleeps tr) <= 256 * Z.max 0 10.
Proof.
  apply (X2_get_event_batch_stops_at_first_success_or_budget
           nat Z unit (flaky_getLogs 3) 100 200 tt 10 11 (fresh 0%nat)).
  vm_compute. lia.
Defined.

(** ** Batched log fetching, further *)

Lemma batch_ranges_last cursor to_block batch_size :
  0 <= batch_size -> cursor <= to_block -> to_block <= cursor + batch_size ->
  batch_ranges cursor to_block batch_size = [(cursor, to_block)].
Proof.
  intros Hbs Hc Hlast. unfold batch_ranges.
  rewrite Z.div_small by lia.
  change (Z.to_nat (0 + 1)) with 1%nat. cbn [seq map].
  cbv zeta. do 2 f_equal; lia.
Qed.

Lemma batch_ranges_more cursor to_block batch_size :
  0 <= batch_size -> cursor + batch_size < to_block ->
  batch_ranges cursor to_block batch_size
  = (cursor, cursor + batch_size)
      :: batch_ranges (cursor + batch_size + 1) to_block batch_size.
Proof.
  intros Hbs Hmore. unfold batch_ranges.
  replace (to_block - cursor)
    with ((to_block - (cursor + batch_size + 1)) + 1 * (batch_size + 1)) by lia.
  rewrite Z.div_add by lia.
  assert (Hq : 0 <= (to_block - (cursor + batch_size + 1)) / (batch_size + 1))
    by (apply Z.div_pos; lia).
  replace (Z.to_nat ((to_block - (cursor + batch_size + 1)) / (batch_size + 1) + 1 + 1))
    with (Datatypes.S
            (Z.to_nat ((to_block - (cursor + batch_size + 1)) / (batch_size + 1) + 1)))
    by lia.
  cbn [seq map]. f_equal.
  - cbv zeta. f_equal; lia.
  - rewrite <- seq_shift, map_map. apply map_ext. intros i.
    cbv zeta. f_equal; lia.
Qed.

Lemma batch_ranges_length from_block to_block batch_size :
  0 <= batch_size -> from_block <= to_block ->
  Z.of_nat (List.length (batch_ranges from_block to_block batch_size))
  = (to_block - from_block) / (batch_size + 1) + 1.
Proof.
  intros Hbs Hft. unfold batch_ranges. rewrite length_map, length_seq.
  assert (0 <= (to_block - from_block) / (batch_size + 1))
    by (apply Z.div_pos; lia).
  lia.
Qed.

Section FetcherRequests.
Context {S Rec Filter : Type}.
Variable getLogs : Z -> Z -> Filter -> S -> Outcome (list Rec) * S.
Variable logs : Z -> Z -> Filter -> list Rec.

(** On a node that answers every request the loop asks for exactly the
    ranges of [batch_ranges], once each, and returns their answers one
    after the other. *)
Lemma get_events_loop_requests to_block batch_size flt :
  reliable getLogs logs ->
  0 <= batch_size ->
  forall fuel cursor acc s tr,
    cursor <= to_block ->
    (Z.to_nat (to_block - cursor + 1) <= fuel)%nat ->
    exists tr',
      get_events_loop getLogs fuel to_block batch_size flt acc cursor (mkWorld s tr)
      = Some (Return (acc ++ flat_map (fun r => logs (fst r) (snd r) flt)
                                      (batch_ranges cursor to_block batch_size)),
              mkWorld s (tr ++ tr'))
      /\ effects tr' = map getLogs_event (batch_ranges cursor to_block batch_size).
Proof.
  intros Hrel Hbs.
  induction fuel as [|fuel IH]; intros cursor acc s tr Hc Hfuel; [lia|].
  cbn [get_events_loop].
  destruct (cursor <=? to_block) eqn:E; [|lia].
  unfold bind at 1, logger at 1, emit at 1. cbn [node trace].
  unfold bind at 1. rewrite (get_event_batch_reliable getLogs logs Hrel).
  set (batch_to := Z.min (cursor + batch_size) to_block).
  set (tr1 := (tr ++ [Ev_log INFO "fetching batch from %s to %s (up to %s)"])
                ++ [Ev_getLogs cursor batch_to]).
  set (found := if 0 <? Z.of_nat (List.length (logs cursor batch_to flt))
                then [Ev_log INFO "found %s events in batch"] else []).
  assert (Hfound : forall (k : M S (list Rec)),
             bind (if 0 <? Z.of_nat (List.length (logs cursor batch_to flt))
                   then logger INFO "found %s events in batch" else ret tt)
                  (fun _ => k) (mkWorld s tr1)
             = k (mkWorld s (tr1 ++ found))).
  { intros k. unfold found.
    destruct (0 <? Z.of_nat (List.length (logs cursor batch_to flt)));
      unfold bind, logger, emit, ret; cbn [node trace];
      rewrite ?app_nil_r; reflexivity. }
  rewrite Hfound.
  assert (Hefound : effects found = []).
  { unfold found.
    destruct (0 <? Z.of_nat (List.length (logs cursor batch_to flt))); reflexivity. }
  destruct (Z.eq_dec batch_to to_block) as [Hlast | Hmore].
  - rewrite get_events_loop_done by lia.
    rewrite batch_ranges_last by lia.
    exists ([Ev_log INFO "fetching batch from %s to %s (up to %s)";
             Ev_getLogs cursor batch_to] ++ found
            ++ [Ev_log INFO "found %s events in total"]).
    split.
    + unfold tr1. rewrite Hlast. repeat rewrite <- app_assoc.
      cbn [flat_map fst snd]. rewrite app_nil_r. reflexivity.
    + rewrite !effects_app, Hefound, Hlast. reflexivity.
  - assert (Hbt : batch_to = cursor + batch_size) by lia.
    destruct (IH (batch_to + 1) (acc ++ logs cursor batch_to flt) s (tr1 ++ found))
      as (tr' & Hrun & Heff); [lia | lia |].
    rewrite batch_ranges_more by lia.
    exists ([Ev_log INFO "fetching batch from %s to %s (up to %s)";
             Ev_getLogs cursor batch_to] ++ found ++ tr').
    split.
    + rewrite Hrun. unfold tr1. repeat rewrite <- app_assoc.
      cbn [flat_map fst snd]. rewrite Hbt. reflexivity.
    + rewrite !effects_app, Hefound, Heff, Hbt. reflexivity.
Qed.

(** With a negative batch size the cursor never passes [to_block]. *)
Lemma get_events_loop_negative_batch to_block batch_size flt :
  reliable getLogs logs ->
  batch_size < 0 ->
  forall fuel cursor acc w,
    cursor <= to_block ->
    get_events_loop getLogs fuel to_block batch_size flt acc cursor w = None.
Proof.
  intros Hrel Hbs.
  induction fuel as [|fuel IH]; intros cursor acc [s tr] Hc;
    cbn [get_events_loop]; (destruct (cursor <=? to_block) eqn:E; [|lia]);
    [reflexivity|].
  unfold bind at 1, logger at 1, emit at 1. cbn [node trace].
  unfold bind at 1. rewrite (get_event_batch_reliable getLogs logs Hrel).
  unfold bind at 1.
  destruct (0 <? Z.of_nat (List.length
                             (logs cursor (Z.min (cursor + batch_size) to_block) flt)));
    unfold logger, emit, ret; cbn [node trace]; apply IH; lia.
Qed.

(** With transient failures every batch is answered within its
    retries, so the loop returns the complete answer. *)
Lemma get_events_loop_transient to_block batch_size flt :
  transient getLogs logs 10 ->
  concatenative logs ->
  0 <= batch_size ->
  forall fuel cursor acc s tr,
    cursor <= to_block ->
    (Z.to_nat (to_block - cursor + 1) + 10 <= fuel)%nat ->
    exists s' tr',
      get_events_loop getLogs fuel to_block batch_size flt acc cursor (mkWorld s tr)
      = Some (Return (acc ++ logs cursor to_block flt), mkWorld s' (tr ++ tr')).
Proof.
  intros Htrans Hcat Hbs.
  induction fuel as [|fuel IH]; intros cursor acc s tr Hc Hfuel; [lia|].
  cbn [get_events_loop].
  destruct (cursor <=? to_block) eqn:E; [|lia].
  unfold bind at 1, logger at 1, emit at 1. cbn [node trace].
  set (batch_to := Z.min (cursor + batch_size) to_block).
  destruct (Htrans cursor batch_to flt s) as (k & Hk & Hfails).
  destruct (batch_loop_succeeds getLogs k (Datatypes.S fuel) cursor batch_to flt
              default_retries default_retries (logs cursor batch_to flt) s
              (tr ++ [Ev_log INFO "fetching batch from %s to %s (up to %s)"])
              Hfails)
    as (trb & Hbatch & _); [unfold default_retries; lia | lia |].
  unfold bind at 1. unfold get_event_batch_with_retries. rewrite Hbatch.
  set (s1 := state_after (getLogs cursor batch_to flt) (Datatypes.S k) s).
  set (tr1 := (tr ++ [Ev_log INFO "fetching batch from %s to %s (up to %s)"]) ++ trb).
  set (found := if 0 <? Z.of_nat (List.length (logs cursor batch_to flt))
                then [Ev_log INFO "found %s events in batch"] else []).
  assert (Hfound : forall (kont : M S (list Rec)),
             bind (if 0 <? Z.of_nat (List.length (logs cursor batch_to flt))
                   then logger INFO "found %s events in batch" else ret tt)
                  (fun _ => kont) (mkWorld s1 tr1)
             = kont (mkWorld s1 (tr1 ++ found))).
  { intros kont. unfold found.
    destruct (0 <? Z.of_nat (List.length (logs cursor batch_to flt)));
      unfold bind, logger, emit, ret; cbn [node trace];
      rewrite ?app_nil_r; reflexivity. }
  rewrite Hfound.
  destruct (Z.eq_dec batch_to to_block) as [Hlast | Hmore].
  - rewrite get_events_loop_done by lia.
    exists s1, ([Ev_log INFO "fetching batch from %s to %s (up to %s)"] ++ trb
                ++ found ++ [Ev_log INFO "found %s events in total"]).
    unfold tr1. rewrite Hlast. repeat rewrite <- app_assoc. reflexivity.
  - destruct (IH (batch_to + 1) (acc ++ logs cursor batch_to flt) s1 (tr1 ++ found))
      as (s' & tr' & Hrun); [lia | lia |].
    exists s', ([Ev_log INFO "fetching batch from %s to %s (up to %s)"] ++ trb
                ++ found ++ tr').
    rewrite Hrun. unfold tr1. repeat rewrite <- app_assoc.
    rewrite (Hcat cursor batch_to to_block flt) by lia.
    reflexivity.
Qed.
End FetcherRequests.

Lemma sleeps_getLogs_events rs : sleeps (map getLogs_event rs) = [].
Proof. induction rs as [|r rs IH]; [reflexivity | exact IH]. Qed.

(** X3: on a node that answers every request, [get_events] with
    [from_block <= to_block] and [batch_size >= 0] asks for exactly the
    ranges [[from_block + i * (batch_size + 1), ... + batch_size]], the
    last one cut at [to_block], once each and in this order, never
    sleeps, and returns the answers one after the other.  So it makes
    [(to_block - from_block) / (batch_size + 1) + 1] requests: one when
    [from_block = to_block], one per block when [batch_size = 0]. *)
Theorem X3_get_events_request_sequence :
  forall (S Rec Filter : Type)
         (getLogs : Z -> Z -> Filter -> S -> Outcome (list Rec) * S)
         (logs : Z -> Z -> Filter -> list Rec)
         (from_block to_block batch_size : Z) (flt : Filter)
         (fuel : nat) (w : World S),
    reliable getLogs logs ->
    from_block <= to_block ->
    0 <= batch_size ->
    (Z.to_nat (to_block - from_block + 1) <= fuel)%nat ->
    exists tr,
      get_events getLogs fuel from_block to_block batch_size flt w
      = Some (Return (flat_map (fun r => logs (fst r) (snd r) flt)
                               (batch_ranges from_block to_block batch_size)),
              mkWorld (node w) (trace w ++ tr))
      /\ effects tr
         = map getLogs_event (batch_ranges from_block to_block batch_size)
      /\ getLogs_ranges tr = batch_ranges from_block to_block batch_size
      /\ sleeps tr = []
      /\ Z.of_nat (List.length (getLogs_ranges tr))
         = (to_block - from_block) / (batch_size + 1) + 1
      /\ (from_block = to_block -> getLogs_ranges tr = [(from_block, to_block)])
      /\ (batch_size = 0 ->
          getLogs_ranges tr = map (fun n => (n, n)) (Zrange from_block to_block)).
Proof.
  intros S Rec Filter getLogs logs a b bs flt fuel [s tr0] Hrel Hab Hbs Hfuel.
  cbn [node trace].
  destruct (get_events_loop_requests getLogs logs b bs flt Hrel Hbs fuel a [] s
              (tr0 ++ [Ev_log INFO "fetching events from %s to %s with batch size %s"])
              Hab Hfuel)
    as (tr & Hrun & Heff).
  exists ([Ev_log INFO "fetching events from %s to %s with batch size %s"] ++ tr).
  assert (Heff' : effects ([Ev_log INFO "fetching events from %s to %s with batch size %s"]
                             ++ tr)
                  = map getLogs_event (batch_ranges a b bs))
    by (rewrite effects_app, Heff; reflexivity).
  assert (Hr : getLogs_ranges
                 ([Ev_log INFO "fetching events from %s to %s with batch size %s"] ++ tr)
               = batch_ranges a b bs)
    by (rewrite <- getLogs_ranges_effects, Heff'; apply getLogs_ranges_events).
  split; [|split; [exact Heff'|split; [exact Hr|split; [|split; [|split]]]]].
  - unfold get_events. destruct (b <? a) eqn:E; [lia|].
    unfold bind at 1, logger at 1, emit at 1. cbn [node trace].
    rewrite Hrun, <- app_assoc. reflexivity.
  - rewrite <- sleeps_effects, Heff'. apply sleeps_getLogs_events.
  - rewrite Hr. apply batch_ranges_length; assumption.
  - intros ->. rewrite Hr. apply batch_ranges_last; lia.
  - intros ->. rewrite Hr. unfold batch_ranges, Zrange.
    rewrite Z.div_1_r, map_map. apply map_ext_in. intros i Hi.
    apply in_seq in Hi. cbv zeta. f_equal; lia.
Qed.

(** X3 on a ledger of 26 blocks fetched in batches of 10. *)
Lemma X3_get_events_request_witness :
  exists tr,
    get_events ledger_getLogs 26 0 25 10 Z.even (fresh tt)
    = Some (Return (flat_map (fun r => ledger_logs (fst r) (snd r) Z.even)
                             (batch_ranges 0 25 10)),
            mkWorld (node (fresh tt)) (trace (fresh tt) ++ tr))
    /\ effects tr = map getLogs_event (batch_ranges 0 25 10)
    /\ getLogs_ranges tr = batch_ranges 0 25 10
    /\ sleeps tr = []
    /\ Z.of_nat (List.length (getLogs_ranges tr)) = (25 - 0) / (10 + 1) + 1
    /\ (0 = 25 -> getLogs_ranges tr = [(0, 25)])
    /\ (10 = 0 -> getLogs_ranges tr = map (fun n => (n, n)) (Zrange 0 25)).
Proof.
  apply (X3_get_events_request_sequence
           unit Z (Z -> bool) ledger_getLogs ledger_logs 0 25 10 Z.even 26 (fresh tt)).
  - exact ledger_reliable.
  - lia.
  - lia.
  - vm_compute. lia.
Defined.

Lemma moody_transient : transient moody_getLogs ledger_logs 10.
Proof.
  intros a b flt n.
  assert (Hr : (n mod 3 = 0 \/ n mod 3 = 1 \/ n mod 3 = 2)%nat)
    by (pose proof (Nat.mod_upper_bound n 3); lia).
  assert (Hs : forall m, (Datatypes.S m mod 3 = (m mod 3 + 1) mod 3)%nat).
  { intros m. replace (Datatypes.S m) with (m + 1)%nat by lia.
    rewrite Nat.Div0.add_mod. reflexivity. }
  destruct Hr as [H0 | [H1 | H2]].
  - assert (E1 : (Datatypes.S n mod 3 = 1)%nat) by (rewrite Hs, H0; reflexivity).
    assert (E2 : (Datatypes.S (Datatypes.S n) mod 3 = 2)%nat)
      by (rewrite Hs, E1; reflexivity).
    exists 2%nat. split; [lia|]. cbn [fails_then_succeeds]. unfold moody_getLogs.
    rewrite H0. eexists _, _. split; [reflexivity|].
    rewrite E1. eexists _, _. split; [reflexivity|].
    rewrite E2. eexists. reflexivity.
  - assert (E2 : (Datatypes.S n mod 3 = 2)%nat) by (rewrite Hs, H1; reflexivity).
    exists 1%nat. split; [lia|]. cbn [fails_then_succeeds]. unfold moody_getLogs.
    rewrite H1. eexists _, _. split; [reflexivity|].
    rewrite E2. eexists. reflexivity.
  - exists 0%nat. split; [lia|]. cbn [fails_then_succeeds]. unfold moody_getLogs.
    rewrite H2. eexists. reflexivity.
Qed.

Lemma moody_answers : answers_with moody_getLogs ledger_logs.
Proof.
  intros a b flt n v s' H. unfold moody_getLogs in H.
  destruct (n mod 3 =? 2)%nat; inversion H. reflexivity.
Qed.

(** X4: transient failures are absorbed.  On a node where a request
    never fails more than 10 times in a row, and whose answers are
    concatenative, [get_events] with [from_block <= to_block] and
    [batch_size >= 0] returns what one fetch of the whole range
    answers. *)
Theorem X4_get_events_absorbs_transient_failures :
  forall (S Rec Filter : Type)
         (getLogs : Z -> Z -> Filter -> S -> Outcome (list Rec) * S)
         (logs : Z -> Z -> Filter -> list Rec)
         (from_block to_block batch_size : Z) (flt : Filter)
         (fuel : nat) (w : World S),
    transient getLogs logs 10 ->
    concatenative logs ->
    from_block <= to_block ->
    0 <= batch_size ->
    (Z.to_nat (to_block - from_block + 1) + 10 <= fuel)%nat ->
    exists s' tr,
      get_events getLogs fuel from_block to_block batch_size flt w
      = Some (Return (logs from_block to_block flt), mkWorld s' (trace w ++ tr)).
Proof.
  intros S Rec Filter getLogs logs a b bs flt fuel [s tr0] Htr Hcat Hab Hbs Hfuel.
  cbn [node trace].
  destruct (get_events_loop_transient getLogs logs b bs flt Htr Hcat Hbs fuel a [] s
              (tr0 ++ [Ev_log INFO "fetching events from %s to %s with batch size %s"])
              Hab Hfuel)
    as (s' & tr & Hrun).
  exists s', ([Ev_log INFO "fetching events from %s to %s with batch size %s"] ++ tr).
  unfold get_events. destruct (b <? a) eqn:E; [lia|].
  unfold bind at 1, logger at 1, emit at 1. cbn [node trace].
  rewrite Hrun, <- app_assoc. reflexivity.
Qed.

(** X4 on a ledger node that answers only every third request. *)
Lemma X4_get_events_transient_witness :
  transient moody_getLogs ledger_logs 10
  /\ concatenative ledger_logs
  /\ exists s' tr,
       get_events moody_getLogs 36 0 25 10 Z.even (fresh 0%nat)
       = Some (Return (ledger_logs 0 25 Z.even),
               mkWorld s' (trace (fresh 0%nat) ++ tr)).
Proof.
  split; [exact moody_transient|]. split; [exact ledger_concatenative|].
  apply (X4_get_events_absorbs_transient_failures
           nat Z (Z -> bool) moody_getLogs ledger_logs 0 25 10 Z.even 36 (fresh 0%nat)).
  - exact moody_transient.
  - exact ledger_concatenative.
  - lia.
  - lia.
  - vm_compute. lia.
Defined.

(** X5: no partial, wrong or duplicated result.  On any node whose
    answers, when it answers, are those of a concatenative [logs],
    however often and whenever it fails, whatever [get_events] returns
    for [batch_size >= 0] is what one fetch of the whole range answers. *)
Theorem X5_get_events_returns_only_the_complete_result :
  forall (S Rec Filter : Type)
         (getLogs : Z -> Z -> Filter -> S -> Outcome (list Rec) * S)
         (logs : Z -> Z -> Filter -> list Rec)
         (from_block to_block batch_size : Z) (flt : Filter)
         (fuel : nat) (w w' : World S) (evs : list Rec),
    answers_with getLogs logs ->
    concatenative logs ->
    0 <= batch_size ->
    get_events getLogs fuel from_block to_block batch_size flt w
    = Some (Return evs, w') ->
    evs = logs from_block to_block flt.
Proof.
  intros S Rec Filter getLogs logs a b bs flt fuel w w' evs Hans Hcat Hbs H.
  exact (get_events_sound getLogs logs Hans Hcat fuel a b bs flt w evs w' Hbs H).
Qed.

(** X5 on the ledger node that answers only every third request. *)
Lemma X5_get_events_complete_witness :
  exists evs w',
    get_events moody_getLogs 36 0 25 10 Z.even (fresh 0%nat) = Some (Return evs, w')
    /\ evs = ledger_logs 0 25 Z.even.
Proof.
  eexists _, _. split; [vm_compute; reflexivity|].
  eapply (X5_get_events_returns_only_the_complete_result
            nat Z (Z -> bool) moody_getLogs ledger_logs 0 25 10 Z.even 36 (fresh 0%nat)).
  - exact moody_answers.
  - exact ledger_concatenative.
  - lia.
  - vm_compute. reflexivity.
Defined.

(** X6: a persistent failure ends the whole call at the first batch.
    On a node where every request fails, [get_events] asks for the
    first sub-range 11 times, sleeping 2, 4, ..., 256, 256, 256 seconds
    in between (1022 seconds in all), and raises the error of the last
    request; no other range is asked for. *)
Theorem X6_get_events_fails_after_eleven_requests :
  forall (S Rec Filter : Type)
         (getLogs : Z -> Z -> Filter -> S -> Outcome (list Rec) * S)
         (from_block to_block batch_size : Z) (flt : Filter)
         (fuel : nat) (w : World S),
    (forall a b, always_fails (getLogs a b flt)) ->
    from_block <= to_block ->
    (11 <= fuel)%nat ->
    let batch_to := Z.min (from_block + batch_size) to_block in
    let func := getLogs from_block batch_to flt in
    exists e tr,
      get_events getLogs fuel from_block to_block batch_size flt w
      = Some (Raise e, mkWorld (state_after func 11 (node w)) (trace w ++ tr))
      /\ fst (func (state_after func 10 (node w))) = Raise e
      /\ calls tr = repeat (Ev_getLogs from_block batch_to) 11
      /\ sleeps tr = [2; 4; 8; 16; 32; 64; 128; 256; 256; 256]
      /\ Zsum (sleeps tr) = 1022.
Proof.
  intros S Rec Filter getLogs a b bs flt fuel [s tr0] Hall Hab Hfuel batch_to func.
  cbn [node trace].
  destruct fuel as [|fuel]; [lia|].
  destruct (batch_loop_exhausts getLogs a batch_to flt (Hall a batch_to) 10
              (Datatypes.S fuel) default_retries default_retries s
              ((tr0 ++ [Ev_log INFO "fetching events from %s to %s with batch size %s"])
                 ++ [Ev_log INFO "fetching batch from %s to %s (up to %s)"]))
    as (e & tr & Hrun & Hlast & Hcalls & Hsleeps); [reflexivity | lia |].
  fold func in Hrun, Hlast.
  exists e, ([Ev_log INFO "fetching events from %s to %s with batch size %s";
              Ev_log INFO "fetching batch from %s to %s (up to %s)"] ++ tr).
  assert (Hsl : sleeps tr = [2; 4; 8; 16; 32; 64; 128; 256; 256; 256])
    by (rewrite Hsleeps; reflexivity).
  split; [|split; [exact Hlast|split; [|split]]].
  - unfold get_events. destruct (b <? a) eqn:E; [lia|].
    unfold bind at 1, logger at 1, emit at 1. cbn [node trace].
    rewrite (get_events_loop_aborts getLogs fuel b bs flt [] a _ e
               (mkWorld (state_after func 11 s)
                  (((tr0 ++ [Ev_log INFO "fetching events from %s to %s with batch size %s"])
                      ++ [Ev_log INFO "fetching batch from %s to %s (up to %s)"]) ++ tr))
               Hab).
    + repeat rewrite <- app_assoc. reflexivity.
    + cbn [node trace]. unfold get_event_batch_with_retries. exact Hrun.
  - rewrite calls_app, Hcalls. reflexivity.
  - rewrite sleeps_app, Hsl. reflexivity.
  - rewrite sleeps_app, Hsl. reflexivity.
Qed.

(** X6 on a node that fails on every request. *)
Lemma X6_get_events_fails_witness :
  exists e tr,
    get_events broken_getLogs 11 0 25 10 tt (fresh 0%nat)
    = Some (Raise e,
            mkWorld (state_after (broken_getLogs 0 (Z.min (0 + 10) 25) tt) 11
                                 (node (fresh 0%nat)))
                    (trace (fresh 0%nat) ++ tr))
    /\ fst (broken_getLogs 0 (Z.min (0 + 10) 25) tt
              (state_after (broken_getLogs 0 (Z.min (0 + 10) 25) tt) 10
                           (node (fresh 0%nat))))
       = Raise e
    /\ calls tr = repeat (Ev_getLogs 0 (Z.min (0 + 10) 25)) 11
    /\ sleeps tr = [2; 4; 8; 16; 32; 64; 128; 256; 256; 256]
    /\ Zsum (sleeps tr) = 1022.
Proof.
  apply (X6_get_events_fails_after_eleven_requests
           nat Z unit broken_getLogs 0 25 10 tt 11 (fresh 0%nat)).
  - intros a b. apply broken_getLogs_always_fails.
  - lia.
  - lia.
Defined.

(** X7: a negative batch size never ends.  On a node that answers
    every request, [get_events] with [from_block <= to_block] and
    [batch_size < 0] does not return, whatever the fuel: the cursor
    never passes [to_block]. *)
Theorem X7_get_events_negative_batch_size_diverges :
  forall (S Rec Filter : Type)
         (getLogs : Z -> Z -> Filter -> S -> Outcome (list Rec) * S)
         (logs : Z -> Z -> Filter -> list Rec)
         (from_block to_block batch_size : Z) (flt : Filter)
         (fuel : nat) (w : World S),
    reliable getLogs logs ->
    from_block <= to_block ->
    batch_size < 0 ->
    get_events getLogs fuel from_block to_block batch_size flt w = None.
Proof.
  intros S Rec Filter getLogs logs a b bs flt fuel w Hrel Hab Hbs.
  unfold get_events. destruct (b <? a) eqn:E; [lia|].
  unfold bind at 1, logger at 1, emit at 1. cbn [node trace].
  rewrite (get_events_loop_negative_batch getLogs logs b bs flt Hrel Hbs); [reflexivity | lia].
Qed.

(** X7 on the ledger with batch size -1. *)
Lemma X7_get_events_negative_batch_witness :
  get_events ledger_getLogs 1000 0 25 (- 1) Z.even (fresh tt) = None.
Proof.
  apply (X7_get_events_negative_batch_size_diverges
           unit Z (Z -> bool) ledger_getLogs ledger_logs 0 25 (- 1) Z.even 1000
           (fresh tt)).
  - exact ledger_reliable.
  - lia.
  - lia.
Defined.

(** ** Closest-block bisection, further *)

Lemma strictly_increasing_monotone c : strictly_increasing c -> monotone c.
Proof.
  intros Hs i j Hi Hij Hj.
  destruct (Z.eq_dec i j) as [-> | Hne]; [lia|].
  pose proof (Hs i j Hi ltac:(lia) Hj). lia.
Qed.

Lemma linear_chain_strictly_increasing : strictly_increasing linear_chain.
Proof.
  intros i j Hi Hij Hj. unfold linear_chain in *. cbn [stamp latest] in *. lia.
Qed.

(** X8: on a monotone chain with at least one block, with [not_before]
    false, the block returned is a nearest block of the whole chain: no
    block of [1 .. latest] has a timestamp nearer to the wanted one,
    wherever the wanted timestamp lies (before the first block, after
    the latest, or in between). *)
Theorem X8_closest_block_is_nearest_of_all :
  forall (c : Chain) (d : datetime) (fuel : nat) (tr : list Event),
    monotone c ->
    uint64_stamps c ->
    datetime_in_range d ->
    1 <= latest c ->
    (Z.to_nat (latest c) <= fuel)%nat ->
    exists n tr',
      get_closest_block chain_web3 fuel d false (mkWorld c tr)
      = Some (Return (block_of c n), mkWorld c (tr ++ tr'))
      /\ 1 <= n <= latest c
      /\ forall j, 1 <= j <= latest c ->
                   dist c (int_timestamp d) n <= dist c (int_timestamp d) j.
Proof.
  intros c d fuel tr Hmono Hs Hd HN Hfuel.
  pose proof (data_ranges_within_sentinel c d Hs Hd) as Hw.
  destruct (search_outcome c d fuel tr HN Hw Hfuel)
    as (n & tr' & Hn & Hfc & _ & _ & _ & Hcases).
  exists n, (search_prelude ++ tr').
  destruct Hcases as [(Hexact & _ & Hrun) | (_ & Hbr & Hrun)].
  - split; [apply Hrun|]. split; [exact Hn|].
    intros j Hj. unfold dist. lia.
  - split; [rewrite (Hrun false), after_loop_chain; reflexivity|].
    split; [exact Hn|].
    destruct (Hbr Hmono) as (k & Hk & B1 & B2 & B3 & B4).
    destruct (first_closest_least c _ _ n Hfc) as [_ Hleast].
    intros j Hj.
    destruct (Z_le_gt_dec j k) as [Hle | Hgt].
    + assert (Hink : In k (probes tr'))
        by (replace k with (k + 1 - 1) by lia; apply B3; lia).
      pose proof (Hleast k Hink) as Hnk.
      pose proof (Hmono j k ltac:(lia) Hle ltac:(lia)) as M.
      pose proof (B1 k ltac:(lia)) as Bk.
      unfold dist in *. lia.
    + assert (Hink : In (k + 1) (probes tr')) by (apply B4; lia).
      pose proof (Hleast (k + 1) Hink) as Hnk.
      pose proof (Hmono (k + 1) j ltac:(lia) ltac:(lia) ltac:(lia)) as M.
      pose proof (B2 (k + 1) ltac:(lia)) as Bk.
      unfold dist in *. lia.
Qed.

(** X8 on the linear chain, wanted timestamp beyond the latest block. *)
Lemma X8_closest_block_nearest_witness :
  exists n tr',
    get_closest_block chain_web3 100 (at_time 123456) false (mkWorld linear_chain [])
    = Some (Return (block_of linear_chain n), mkWorld linear_chain ([] ++ tr'))
    /\ 1 <= n <= latest linear_chain
    /\ forall j, 1 <= j <= latest linear_chain ->
                 dist linear_chain (int_timestamp (at_time 123456)) n
                 <= dist linear_chain (int_timestamp (at_time 123456)) j.
Proof.
  apply (X8_closest_block_is_nearest_of_all linear_chain (at_time 123456) 100 []).
  - exact linear_chain_monotone.
  - exact linear_chain_uint64.
  - apply at_time_in_range. split; vm_compute; congruence.
  - vm_compute. congruence.
  - vm_compute. lia.
Defined.

(** X9: where timestamps increase strictly, [not_before] does what it
    is for.  The function then returns the first block of
    [1 .. latest] whose timestamp is not before the wanted one; when
    every block is before the wanted time it raises the
    [BlockNotFound] of the fetch of block [latest + 1]. *)
Theorem X9_not_before_returns_first_block_not_before :
  forall (c : Chain) (d : datetime) (fuel : nat) (tr : list Event),
    strictly_increasing c ->
    uint64_stamps c ->
    datetime_in_range d ->
    1 <= latest c ->
    (Z.to_nat (latest c) <= fuel)%nat ->
    let t := int_timestamp d in
    (forall f,
        1 <= f <= latest c ->
        t <= stamp c f ->
        (forall j, 1 <= j < f -> stamp c j < t) ->
        exists tr',
          get_closest_block chain_web3 fuel d true (mkWorld c tr)
          = Some (Return (block_of c f), mkWorld c (tr ++ tr')))
    /\ ((forall j, 1 <= j <= latest c -> stamp c j < t) ->
        exists tr',
          get_closest_block chain_web3 fuel d true (mkWorld c tr)
          = Some (Raise (BlockNotFound (latest c + 1)), mkWorld c (tr ++ tr'))).
Proof.
  intros c d fuel tr Hstrict Hs Hd HN Hfuel t. subst t.
  set (t := int_timestamp d) in *.
  pose proof (strictly_increasing_monotone c Hstrict) as Hmono.
  pose proof (data_ranges_within_sentinel c d Hs Hd) as Hw.
  destruct (search_outcome c d fuel tr HN Hw Hfuel)
    as (n & tr' & Hn & Hfc & _ & _ & _ & Hcases).
  fold t in Hfc, Hcases.
  destruct Hcases as [(Hexact & _ & Hrun) | (_ & Hbr & Hrun)].
  - (* an exact match *)
    split.
    + intros f Hf Htf Hbefore. exists (search_prelude ++ tr').
      assert (n = f).
      { destruct (Z_lt_le_dec n f) as [Hlt | Hge].
        - specialize (Hbefore n ltac:(lia)). lia.
        - destruct (Z.eq_dec n f) as [|Hne]; [assumption|].
          pose proof (Hstrict f n ltac:(lia) ltac:(lia) ltac:(lia)). lia. }
      subst f. apply Hrun.
    + intros Hall. specialize (Hall n Hn). lia.
  - (* the loop ran to its end *)
    destruct (Hbr Hmono) as (k & Hk & B1 & B2 & B3 & B4).
    destruct (first_closest_least c t _ n Hfc) as [_ Hleast].
    assert (Hnk : n = k \/ n = k + 1).
    { destruct (Z_le_gt_dec n k) as [Hle | Hgt].
      - left.
        assert (Hink : In k (probes tr'))
          by (replace k with (k + 1 - 1) by lia; apply B3; lia).
        pose proof (Hleast k Hink) as D.
        pose proof (B1 k ltac:(lia)) as Bk. pose proof (B1 n ltac:(lia)) as Bn.
        destruct (Z.eq_dec n k) as [|Hne]; [assumption|].
        pose proof (Hstrict n k ltac:(lia) ltac:(lia) ltac:(lia)).
        unfold dist in D. lia.
      - right.
        assert (Hink : In (k + 1) (probes tr')) by (apply B4; lia).
        pose proof (Hleast (k + 1) Hink) as D.
        pose proof (B2 (k + 1) ltac:(lia)) as Bk. pose proof (B2 n ltac:(lia)) as Bn.
        destruct (Z.eq_dec n (k + 1)) as [|Hne]; [assumption|].
        pose proof (Hstrict (k + 1) n ltac:(lia) ltac:(lia) ltac:(lia)).
        unfold dist in D. lia. }
    rewrite (Hrun true), after_loop_chain. cbn [block_of number timestamp andb].
    fold t.
    split.
    + intros f Hf Htf Hbefore.
      assert (f = k + 1).
      { destruct (Z_le_gt_dec f k) as [Hle | Hgt].
        - specialize (B1 f ltac:(lia)). lia.
        - destruct (Z.eq_dec f (k + 1)) as [|Hne]; [assumption|].
          specialize (Hbefore (k + 1) ltac:(lia)).
          specialize (B2 (k + 1) ltac:(lia)). lia. }
      subst f.
      destruct Hnk as [-> | ->].
      * pose proof (B1 k ltac:(lia)) as Bk.
        destruct (stamp c k <? t) eqn:E; [|lia].
        destruct ((0 <=? k + 1) && (k + 1 <=? latest c)) eqn:E2; [|lia].
        eexists. rewrite <- app_assoc. reflexivity.
      * pose proof (B2 (k + 1) ltac:(lia)) as Bk.
        destruct (stamp c (k + 1) <? t) eqn:E; [lia|].
        eexists. reflexivity.
    + intros Hall.
      assert (k = latest c).
      { destruct (Z.eq_dec k (latest c)) as [|Hne]; [assumption|].
        specialize (B2 (k + 1) ltac:(lia)). specialize (Hall (k + 1) ltac:(lia)). lia. }
      subst k.
      destruct Hnk as [-> | ->]; [|lia].
      specialize (Hall (latest c) ltac:(lia)).
      destruct (stamp c (latest c) <? t) eqn:E; [|lia].
      destruct ((0 <=? latest c + 1) && (latest c + 1 <=? latest c)) eqn:E2; [lia|].
      eexists. rewrite <- app_assoc. reflexivity.
Qed.

(** X9 on the linear chain, wanted timestamp 50500 and block 51. *)
Lemma X9_not_before_witness :
  strictly_increasing linear_chain
  /\ exists tr',
       get_closest_block chain_web3 100 (at_time 50500) true (mkWorld linear_chain [])
       = Some (Return (block_of linear_chain 51), mkWorld linear_chain ([] ++ tr')).
Proof.
  split; [exact linear_chain_strictly_increasing|].
  apply (proj1 (X9_not_before_returns_first_block_not_before
                  linear_chain (at_time 50500) 100 []
                  linear_chain_strictly_increasing linear_chain_uint64
                  (at_time_in_range 50500 ltac:(split; vm_compute; congruence))
                  ltac:(vm_compute; congruence) ltac:(vm_compute; lia)) 51).
  - split; vm_compute; congruence.
  - vm_compute. congruence.
  - intros j Hj. unfold linear_chain. cbn [stamp at_time int_timestamp]. lia.
Defined.

(** Each probe at least halves the interval: [b] iterations are enough
    for an interval of fewer than [2 ^ b] blocks. *)
Lemma bisect_loop_probe_bound c t :
  forall b fuel lo hi cb cd tr,
    1 <= lo -> hi <= latest c ->
    hi - lo + 1 < 2 ^ Z.of_nat b ->
    (b <= fuel)%nat ->
    exists tr' exit,
      bisect_loop chain_web3 fuel t lo hi cb cd (mkWorld c tr)
      = Some (Return exit, mkWorld c (tr ++ tr'))
      /\ (List.length (probes tr') <= b)%nat
      /\ effects tr' = map Ev_get_block (probes tr').
Proof.
  induction b as [|b IH]; intros fuel lo hi cb cd tr Hlo Hhi Hsize Hfuel.
  - exists [], (Fallthrough cb).
    rewrite bisect_loop_exit, app_nil_r by (cbn in Hsize; lia).
    split; [reflexivity|]. split; [cbn; lia | reflexivity].
  - destruct (Z_lt_le_dec hi lo) as [Hempty | Hne].
    + exists [], (Fallthrough cb).
      rewrite bisect_loop_exit, app_nil_r by lia.
      split; [reflexivity|]. split; [cbn; lia | reflexivity].
    + destruct fuel as [|fuel]; [lia|].
      pose proof (midpoint_bounds lo hi Hne) as Hmid.
      pose proof (Z.div_mod (lo + hi) 2 ltac:(lia)) as Hdm.
      pose proof (Z.mod_pos_bound (lo + hi) 2 ltac:(lia)) as Hm.
      rewrite Nat2Z.inj_succ, Z.pow_succ_r in Hsize by lia.
      rewrite bisect_loop_step by lia.
      set (mid := (lo + hi) / 2) in *.
      cbv zeta.
      set (cb1 := if dist c t mid <? cd then Some (block_of c mid) else cb).
      set (cd1 := if dist c t mid <? cd then dist c t mid else cd).
      destruct (stamp c mid >? t) eqn:Egt; [|destruct (stamp c mid <? t) eqn:Elt].
      * destruct (IH fuel lo (mid - 1) cb1 cd1 (tr ++ [Ev_get_block mid; probe_log]))
          as (tr2 & exit & Hrun & Hlen & Heff); try lia.
        exists ([Ev_get_block mid; probe_log] ++ tr2), exit.
        assert (Hprobes : probes ([Ev_get_block mid; probe_log] ++ tr2)
                          = mid :: probes tr2) by reflexivity.
        split; [rewrite Hrun, <- app_assoc; reflexivity|].
        rewrite Hprobes.
        split; [cbn [List.length]; lia|].
        rewrite effects_app, Heff. reflexivity.
      * destruct (IH fuel (mid + 1) hi cb1 cd1 (tr ++ [Ev_get_block mid; probe_log]))
          as (tr2 & exit & Hrun & Hlen & Heff); try lia.
        exists ([Ev_get_block mid; probe_log] ++ tr2), exit.
        assert (Hprobes : probes ([Ev_get_block mid; probe_log] ++ tr2)
                          = mid :: probes tr2) by reflexivity.
        split; [rewrite Hrun, <- app_assoc; reflexivity|].
        rewrite Hprobes.
        split; [cbn [List.length]; lia|].
        rewrite effects_app, Heff. reflexivity.
      * exists [Ev_get_block mid; probe_log], (Returned (block_of c mid)).
        split; [reflexivity|]. split; [cbn; lia | reflexivity].
Qed.

Lemma sleeps_get_block_events ps : sleeps (map Ev_get_block ps) = [].
Proof. induction ps as [|p ps IH]; [reflexivity | exact IH]. Qed.

(** X10: the search is logarithmic and does not retry.  On a chain of
    [latest >= 1] blocks, whatever the timestamps and the wanted time,
    [floor(log2 latest) + 1] iterations are enough: the function asks
    for the latest block number once, fetches at most
    [floor(log2 latest) + 1] blocks in the loop and at most one more
    when [not_before] is set, and never sleeps. *)
Theorem X10_get_closest_block_is_logarithmic :
  forall (c : Chain) (d : datetime) (not_before : bool) (fuel : nat)
         (tr : list Event),
    1 <= latest c ->
    (Z.to_nat (Z.log2 (latest c) + 1) <= fuel)%nat ->
    exists out tr',
      get_closest_block chain_web3 fuel d not_before (mkWorld c tr)
      = Some (out, mkWorld c (tr ++ tr'))
      /\ Z.of_nat (List.length (probes tr'))
         <= Z.log2 (latest c) + 1 + (if not_before then 1 else 0)
      /\ effects tr' = Ev_block_number :: map Ev_get_block (probes tr')
      /\ sleeps tr' = [].
Proof.
  intros c d nb fuel tr HN Hfuel.
  pose proof (Z.log2_nonneg (latest c)) as Hl.
  destruct (Z.log2_spec (latest c) ltac:(lia)) as [_ Hup].
  destruct (bisect_loop_probe_bound c (int_timestamp d)
              (Z.to_nat (Z.log2 (latest c) + 1)) fuel 1 (latest c) None
              initial_closest_diff (tr ++ search_prelude))
    as (tr' & exit & Hrun & Hlen & Heff); try lia.
  { rewrite Z2Nat.id by lia. unfold Z.succ in Hup. lia. }
  assert (Hshape : forall out extra,
             effects extra = map Ev_get_block (probes extra) ->
             (List.length (probes extra) <= (if nb then 1 else 0))%nat ->
             get_closest_block chain_web3 fuel d nb (mkWorld c tr)
             = Some (out, mkWorld c (((tr ++ search_prelude) ++ tr') ++ extra)) ->
             exists out tr'',
               get_closest_block chain_web3 fuel d nb (mkWorld c tr)
               = Some (out, mkWorld c (tr ++ tr''))
               /\ Z.of_nat (List.length (probes tr''))
                  <= Z.log2 (latest c) + 1 + (if nb then 1 else 0)
               /\ effects tr'' = Ev_block_number :: map Ev_get_block (probes tr'')
               /\ sleeps tr'' = []).
  { intros out extra Hext Hlext Hres.
    exists out, (search_prelude ++ tr' ++ extra).
    assert (Hp : probes (search_prelude ++ tr' ++ extra) = probes tr' ++ probes extra).
    { rewrite probes_app, probes_app. reflexivity. }
    assert (He : effects (search_prelude ++ tr' ++ extra)
                 = Ev_block_number :: map Ev_get_block (probes tr' ++ probes extra)).
    { rewrite effects_app, effects_app, Heff, Hext, map_app. reflexivity. }
    split; [rewrite Hres, <- !app_assoc; reflexivity|].
    split; [rewrite Hp, length_app; destruct nb; lia|].
    split; [rewrite He, Hp; reflexivity|].
    rewrite <- sleeps_effects, He. apply sleeps_get_block_events. }
  pose proof (get_closest_block_chain c d nb fuel tr) as Hg.
  rewrite Hrun in Hg.
  destruct exit as [b | [b|]].
  - apply (Hshape (Return b) []); [reflexivity | cbn; lia |].
    rewrite Hg, app_nil_r. reflexivity.
  - rewrite after_loop_chain in Hg.
    destruct (nb && (timestamp b <? int_timestamp d)) eqn:E.
    + eapply (Hshape _ [next_block_log; Ev_get_block (number b + 1)]);
        [reflexivity | destruct nb; [cbn; lia | discriminate E] |].
      rewrite Hg. reflexivity.
    + apply (Hshape (Return b) []); [reflexivity | cbn; lia |].
      rewrite Hg, app_nil_r. reflexivity.
  - eapply (Hshape _ []); [reflexivity | cbn; lia |].
    rewrite Hg, app_nil_r. reflexivity.
Qed.

(** X10 on the linear chain of 100 blocks with 7 units of fuel. *)
Lemma X10_get_closest_block_logarithmic_witness :
  exists out tr',
    get_closest_block chain_web3 7 (at_time 50500) true (mkWorld linear_chain [])
    = Some (out, mkWorld linear_chain ([] ++ tr'))
    /\ Z.of_nat (List.length (probes tr'))
       <= Z.log2 (latest linear_chain) + 1 + (if true then 1 else 0)
    /\ effects tr' = Ev_block_number :: map Ev_get_block (probes tr')
    /\ sleeps tr' = [].
Proof.
  apply (X10_get_closest_block_is_logarithmic linear_chain (at_time 50500) true 7 []).
  - vm_compute. congruence.
  - vm_compute. lia.
Defined.

(** X11: with no block to search ([latest_block_number <= 0], a chain
    with only its genesis block) the function raises the [LookupError]
    that names the wanted time, for either value of [not_before] and
    without fetching any block. *)
Theorem X11_empty_chain_raises_lookup_error :
  forall (c : Chain) (d : datetime) (not_before : bool) (fuel : nat)
         (tr : list Event),
    latest c <= 0 ->
    get_closest_block chain_web3 fuel d not_before (mkWorld c tr)
    = Some (Raise (LookupError ("Unable to determine block closest to "
                                ++ isoformat d)%string),
            mkWorld c (tr ++ search_prelude))
    /\ probes search_prelude = [].
Proof.
  intros c d nb fuel tr HN.
  rewrite get_closest_block_chain, bisect_loop_exit by lia.
  split; reflexivity.
Qed.

(** X11 on a chain with only the genesis block. *)
Lemma X11_empty_chain_witness :
  get_closest_block chain_web3 5 (at_time 1000) true (mkWorld (chain_of_list []) [])
  = Some (Raise (LookupError "Unable to determine block closest to 1970-01-01T00:00:00"),
          mkWorld (chain_of_list []) ([] ++ search_prelude))
  /\ probes search_prelude = [].
Proof.
  apply (X11_empty_chain_raises_lookup_error (chain_of_list []) (at_time 1000) true 5 []).
  vm_compute. congruence.
Defined.

(** ** The cached contract test *)

Section LruFacts.
Context {K V : Type}.
Variable K_eqb : K -> K -> bool.
Hypothesis K_eqb_eq : forall a b, K_eqb a b = true <-> a = b.






Lemma cache_index_bound key (cache : list (K * V)) i :
  cache_index K_eqb key cache = Some i -> (i < List.length cache)%nat.
Proof.
  revert i. induction cache as [|[k v] rest IH]; intros i; [discriminate|].
  cbn [cache_index List.length]. destruct (K_eqb key k).
  - intros H. inversion H. lia.
  - destruct (cache_index K_eqb key rest) as [j|]; [|discriminate].
    intros H. inversion H. specialize (IH j eq_refl). lia.
Qed.



End LruFacts.




(** X13: what is not an address is retried like a network failure and
    is not remembered.  When [to_checksum_address] raises for the
    address (and the cache has no answer for it), [is_contract] calls
    the function 11 times, sleeping 1, 2, 4, ..., 256, 256 seconds in
    between (767 seconds in all), never reaches the node, raises that
    exception, and leaves the cache as it was, so the next call does
    the same again. *)
Theorem X13_is_contract_retries_invalid_address :
  forall (S : Type) (to_checksum_address : string -> Outcome string)
         (eth_get_code : nat -> string -> S -> Outcome (list Byte.byte) * S)
         (fuel : nat) (cache : list (ContractKey * bool))
         (web3 : nat) (address : string) (w : World S) (e : PyExc),
    cache_get contract_key_eqb (web3, address) cache = None ->
    to_checksum_address address = Raise e ->
    (11 <= fuel)%nat ->
    exists tr,
      is_contract to_checksum_address eth_get_code fuel cache web3 address w
      = Some (Raise e, cache, mkWorld (node w) (trace w ++ tr))
      /\ calls tr = repeat Ev_call 11
      /\ sleeps tr = [1; 2; 4; 8; 16; 32; 64; 128; 256; 256]
      /\ Zsum (sleeps tr) = 767.
Proof.
  intros S chk get_code fuel cache web3 address [s tr0] e Hget Hbad Hfuel.
  cbn [node trace].
  set (body := is_contract_body chk get_code web3 address).
  assert (Hbody : forall s0, body s0 = (Raise e, s0)).
  { intros s0. unfold body, is_contract_body, to_address. rewrite Hbad. reflexivity. }
  assert (Hstate : forall n, state_after body n s = s).
  { induction n as [|n IHn]; [reflexivity|].
    cbn [state_after]. rewrite Hbody. exact IHn. }
  assert (Hall : always_fails body).
  { intros s0. exists e. rewrite Hbody. reflexivity. }
  destruct (wrapped_loop_exhausts body Hall 10 fuel retryable_default_max_attempts
              0 s tr0)
    as (e' & tr & Hrun & Hlast & Hcalls & Hsleeps);
    [lia | reflexivity | lia |].
  rewrite Hstate in Hrun. rewrite Hbody in Hlast. cbn [fst] in Hlast.
  inversion Hlast; subst e'.
  assert (Hsl : sleeps tr = [1; 2; 4; 8; 16; 32; 64; 128; 256; 256])
    by (rewrite Hsleeps; reflexivity).
  exists tr. split; [|split; [exact Hcalls|split; [exact Hsl|]]].
  - unfold is_contract, lru_cache. rewrite Hget. cbn [fst snd].
    fold body. unfold retryable. rewrite Hrun. reflexivity.
  - rewrite Hsl. reflexivity.
Qed.

(** X13 on an address without the 0x prefix. *)
Lemma X13_is_contract_invalid_address_witness :
  exists tr,
    is_contract demo_checksum demo_get_code 11 [] 1 "abc" (fresh [Byte.x60])
    = Some (Raise (ValueError "Unknown format, attempted to convert to bytes"), [],
            mkWorld (node (fresh [Byte.x60])) (trace (fresh [Byte.x60]) ++ tr))
    /\ calls tr = repeat Ev_call 11
    /\ sleeps tr = [1; 2; 4; 8; 16; 32; 64; 128; 256; 256]
    /\ Zsum (sleeps tr) = 767.
Proof.
  apply (X13_is_contract_retries_invalid_address
           (list Byte.byte) demo_checksum demo_get_code 11 [] 1%nat "abc"
           (fresh [Byte.x60])).
  - reflexivity.
  - reflexivity.
  - lia.
Defined.



(** ** The Uint256 column type, further *)

Lemma coerce_and_validate_in_range z :
  0 <= z <= MAX_UINT256 ->
  _coerce_and_validate_uint256 (PyInt z) = Return (PyInt z).
Proof.
  intros Hz. unfold _coerce_and_validate_uint256. cbn [int].
  destruct ((z <? 0) || (z >? MAX_UINT256)) eqn:E; [|reflexivity].
  apply orb_true_iff in E. lia.
Qed.

(** X15: what has been validated stays valid.  Whatever
    [process_bind_param] returns for a Decimal is an integer that
    [process_result_value] returns unchanged, and that
    [process_bind_param] itself passes through unchanged. *)
Theorem X15_uint256_bound_value_reads_back :
  forall (dd : Decimal) (r : PyValue),
    process_bind_param (PyDecimal dd) = Return r ->
    process_result_value r = Return r
    /\ process_bind_param r = Return r
    /\ exists z, r = PyInt z /\ int (PyDecimal dd) = Return z.
Proof.
  intros dd r H. cbn [process_bind_param] in H.
  apply coerce_and_validate_returns in H.
  destruct H as (z & -> & Hint & Hz).
  split; [|split; [reflexivity|]].
  - cbn [process_result_value]. apply coerce_and_validate_in_range, Hz.
  - exists z. split; [reflexivity | exact Hint].
Qed.

(** X15 on Decimal("1.5E+3"). *)
Lemma X15_uint256_reads_back_witness :
  process_result_value (PyInt 1500) = Return (PyInt 1500)
  /\ process_bind_param (PyInt 1500) = Return (PyInt 1500)
  /\ exists z, PyInt 1500 = PyInt z
               /\ int (PyDecimal (DecFinite false 15 2)) = Return z.
Proof.
  apply (X15_uint256_bound_value_reads_back (DecFinite false 15 2) (PyInt 1500)).
  reflexivity.
Defined.

(** X16: the range is checked after the fraction is cut off.  A
    Decimal with digits after the point, [coefficient / 10^n], is
    accepted exactly when its value lies strictly between -1 and
    2^256: a negative value above -1 is accepted and read as 0, a
    value between 2^256 - 1 and 2^256 as 2^256 - 1; what is returned
    is the value truncated towards zero. *)
Theorem X16_uint256_validates_truncated_value :
  forall (negative : bool) (coefficient : N) (exponent : Z),
    exponent < 0 ->
    let scale := 10 ^ (- exponent) in
    let d := PyDecimal (DecFinite negative coefficient exponent) in
    ((exists z, process_result_value d = Return (PyInt z))
     <-> (if negative then Z.of_N coefficient < scale
          else Z.of_N coefficient < 2 ^ 256 * scale))
    /\ (forall z, process_result_value d = Return (PyInt z) ->
                  z = if negative then 0 else Z.of_N coefficient / scale)
    /\ process_bind_param d = process_result_value d.
Proof.
  intros neg coeff e He scale d.
  assert (Hscale : 0 < scale) by (apply Z.pow_pos_nonneg; lia).
  assert (Hc : 0 <= Z.of_N coeff) by lia.
  assert (Hq : 0 <= Z.of_N coeff / scale) by (apply Z.div_pos; lia).
  assert (Hint : int d = Return (if neg then - (Z.of_N coeff / scale)
                                 else Z.of_N coeff / scale)).
  { unfold d. cbn [int]. destruct (0 <=? e) eqn:E; [lia|]. reflexivity. }
  assert (Hmax : MAX_UINT256 = 2 ^ 256 - 1) by reflexivity.
  assert (Hpow : 0 < 2 ^ 256) by (apply Z.pow_pos_nonneg; lia).
  assert (Hres : process_result_value d = _coerce_and_validate_uint256 d)
    by reflexivity.
  split; [|split; [|reflexivity]].
  - rewrite Hres. split.
    + intros [z Hz]. apply coerce_and_validate_returns in Hz.
      destruct Hz as (z' & Hz' & Hi & Hr). rewrite Hint in Hi.
      inversion Hi as [Hi']. destruct neg.
      * assert (Z.of_N coeff / scale = 0) as H0 by lia.
        apply Z.div_small_iff in H0; lia.
      * destruct (Z_lt_le_dec (Z.of_N coeff) (2 ^ 256 * scale)) as [|Hge];
          [assumption|].
        pose proof (Z.div_le_lower_bound (Z.of_N coeff) scale (2 ^ 256) Hscale
                      ltac:(lia)). lia.
    + intros Hcond. unfold _coerce_and_validate_uint256. rewrite Hint.
      destruct neg.
      * rewrite Z.div_small by lia. cbn [Z.opp].
        exists 0. reflexivity.
      * pose proof (Z.div_lt_upper_bound (Z.of_N coeff) scale (2 ^ 256) Hscale
                      ltac:(lia)) as Hb.
        destruct ((Z.of_N coeff / scale <? 0)
                  || (Z.of_N coeff / scale >? MAX_UINT256)) eqn:E.
        -- apply orb_true_iff in E. lia.
        -- eexists. reflexivity.
  - intros z Hz. rewrite Hres in Hz. apply coerce_and_validate_returns in Hz.
    destruct Hz as (z' & Hz' & Hi & Hr). inversion Hz'; subst z'.
    rewrite Hint in Hi. inversion Hi as [Hi']. destruct neg; lia.
Qed.

(** X16 on Decimal("-0.5"), which is accepted and read as 0. *)
Lemma X16_uint256_truncation_witness :
  (exists z, process_result_value (PyDecimal (DecFinite true 5 (- 1)))
             = Return (PyInt z))
  /\ process_result_value (PyDecimal (DecFinite true 5 (- 1))) = Return (PyInt 0).
Proof.
  pose proof (X16_uint256_validates_truncated_value true 5%N (- 1)
                ltac:(lia)) as [Hiff _].
  split.
  - apply Hiff. vm_compute. reflexivity.
  - reflexivity.
Defined.

(** X17: integers are checked on the way out of the database only.
    [process_bind_param] passes a Python int through as it is, in
    range or not, while [process_result_value] raises for the same
    value when it is out of range: what was written unchecked cannot
    be read back. *)
Theorem X17_uint256_int_is_checked_only_when_read :
  forall z : Z,
    process_bind_param (PyInt z) = Return (PyInt z)
    /\ ((exists r, process_result_value (PyInt z) = Return r)
        <-> 0 <= z <= MAX_UINT256)
    /\ (0 <= z <= MAX_UINT256 -> process_result_value (PyInt z) = Return (PyInt z)).
Proof.
  intros z. split; [reflexivity|]. split; [split|].
  - intros [r Hr]. cbn [process_result_value] in Hr.
    apply coerce_and_validate_returns in Hr.
    destruct Hr as (z' & _ & Hi & Hz). cbn [int] in Hi. inversion Hi. lia.
  - intros Hz. exists (PyInt z). apply coerce_and_validate_in_range, Hz.
  - intros Hz. apply coerce_and_validate_in_range, Hz.
Qed.
